(** * A window, a context and a render loop

    Shallow embedding of [src/main.cpp]: the program initialises GLFW, creates
    one 800x600 window with an OpenGL 3.3 core context, loads the GL function
    table through GLAD, and then runs a render loop (input, clear, swap, poll)
    until the window is asked to close.

    The program is a straight sequence of calls into GLFW, GLAD and OpenGL, so
    it is embedded in a small state monad over a [World]: the part of the
    library state the program can observe (library initialised, the window with
    its close flag, key states, framebuffer size and resize callback, the GL
    viewport and clear colour) together with the log of every call the program
    issues, oldest first.  What the outside decides (whether initialisation,
    window creation and function loading succeed, and which events each call to
    [glfwPollEvents] delivers) is read from an [Env].  The render loop may run
    forever, so it takes fuel: one unit per evaluation of the loop condition. *)

From Stdlib Require Import ZArith QArith Bool List String Ascii Lia.
Import ListNotations.
Open Scope string_scope.
Open Scope Z_scope.

(** ** Constants of the GLFW and GL headers used by the program *)

Definition GLFW_CONTEXT_VERSION_MAJOR : Z := 0x00022002.
Definition GLFW_CONTEXT_VERSION_MINOR : Z := 0x00022003.
Definition GLFW_OPENGL_FORWARD_COMPAT : Z := 0x00022006.
Definition GLFW_OPENGL_PROFILE : Z := 0x00022008.
Definition GLFW_OPENGL_CORE_PROFILE : Z := 0x00032001.
Definition GL_TRUE : Z := 1.
Definition GLFW_RELEASE : Z := 0.
Definition GLFW_PRESS : Z := 1.
Definition GLFW_REPEAT : Z := 2.
Definition GLFW_KEY_ESCAPE : Z := 256.
Definition GL_DEPTH_BUFFER_BIT : Z := 0x00000100.
Definition GL_COLOR_BUFFER_BIT : Z := 0x00004000.

(** The line terminator written by the two diagnostics. *)
Definition newline : string := String "010"%char EmptyString.

(** ** Data *)

(** A [GLFWwindow*]: the program creates a single window, so there is a single
    non-null handle; the null pointer is [None] in [option GLFWwindow]. *)
Inductive GLFWwindow : Type := Handle.

(** The functions of the program that are handed to GLFW as callbacks. *)
Inductive GLFWframebuffersizefun : Type := Fn_framebuffer_size_callback.

(** Viewport rectangle of the GL context: x, y, width, height. *)
Record Rect : Type := mkRect { rx : Z; ry : Z; rwidth : Z; rheight : Z }.

(** Clear colour of the GL context.  The components are the decimal values of
    the source's literals. *)
Record Color : Type := mkColor { red : Q; green : Q; blue : Q; alpha : Q }.

(** Every call the program makes, with its arguments. *)
Inductive Call : Type :=
| GlfwInit
| GlfwWindowHint (hint value : Z)
| GlfwCreateWindow (width height : Z) (title : string)
| Cout (text : string)
| GlfwTerminate
| GlfwMakeContextCurrent
| GladLoadGLLoader
| GlViewport (x y width height : Z)
| GlfwSetFramebufferSizeCallback (callback : GLFWframebuffersizefun)
| GlfwWindowShouldClose
| GlfwGetKey (key : Z)
| GlfwSetWindowShouldClose (value : bool)
| GlClearColor (r g b a : Q)
| GlClear (mask : Z)
| GlfwSwapBuffers
| GlfwPollEvents.

(** What the window system reports during [glfwPollEvents]. *)
Inductive Event : Type :=
| FramebufferResized (width height : Z)
| CloseRequested
| KeyChanged (key action : Z).

(** State of the window behind the handle. *)
Record Window : Type := mkWindow {
  should_close : bool;
  keys : Z -> Z;
  fb_size : Z * Z;
  fb_callback : option GLFWframebuffersizefun
}.

Record World : Type := mkWorld {
  glfw_ready : bool;
  window : option Window;
  viewport : Rect;
  clear_color : Color;
  polls : nat;
  log : list Call
}.

(** The outside: whether [glfwInit] succeeds, the framebuffer size of the
    window the window system grants ([None] when it refuses), whether the GL
    function table loads, and the events delivered by the n-th call to
    [glfwPollEvents]. *)
Record Env : Type := mkEnv {
  env_init : bool;
  env_window : option (Z * Z);
  env_glad : bool;
  env_events : nat -> list Event
}.

(** The world at process start. *)
Definition startup : World :=
  mkWorld false None (mkRect 0 0 0 0) (mkColor 0 0 0 0) 0 [].

(** ** The state monad *)

Definition M (A : Type) : Type := World -> A * World.

Definition ret {A : Type} (a : A) : M A := fun w => (a, w).

Definition bind {A B : Type} (c : M A) (k : A -> M B) : M B :=
  fun w => k (fst (c w)) (snd (c w)).

Declare Scope prog_scope.
Delimit Scope prog_scope with prog.
Notation "x <- c ;; k" := (bind c (fun x => k))
  (at level 61, c at next level, right associativity) : prog_scope.
Notation "c ;; k" := (bind c (fun _ => k))
  (at level 61, right associativity) : prog_scope.
Open Scope prog_scope.

(** Final world and result of a computation. *)
Definition exec {A : Type} (c : M A) (w : World) : World := snd (c w).
Definition eval {A : Type} (c : M A) (w : World) : A := fst (c w).

(** ** Updates of the world *)

Definition log_call (c : Call) (w : World) : World :=
  mkWorld (glfw_ready w) (window w) (viewport w) (clear_color w) (polls w)
          (log w ++ [c]).

Definition set_ready (b : bool) (w : World) : World :=
  mkWorld b (window w) (viewport w) (clear_color w) (polls w) (log w).

Definition set_window (o : option Window) (w : World) : World :=
  mkWorld (glfw_ready w) o (viewport w) (clear_color w) (polls w) (log w).

Definition set_viewport (r : Rect) (w : World) : World :=
  mkWorld (glfw_ready w) (window w) r (clear_color w) (polls w) (log w).

Definition set_clear_color (c : Color) (w : World) : World :=
  mkWorld (glfw_ready w) (window w) (viewport w) c (polls w) (log w).

Definition next_poll (w : World) : World :=
  mkWorld (glfw_ready w) (window w) (viewport w) (clear_color w)
          (S (polls w)) (log w).

(** Apply [f] to the window, when there is one. *)
Definition update_window (f : Window -> Window) (w : World) : World :=
  set_window (option_map f (window w)) w.

Definition set_should_close (b : bool) (d : Window) : Window :=
  mkWindow b (keys d) (fb_size d) (fb_callback d).

Definition set_fb_size (s : Z * Z) (d : Window) : Window :=
  mkWindow (should_close d) (keys d) s (fb_callback d).

Definition set_fb_callback (f : GLFWframebuffersizefun) (d : Window) : Window :=
  mkWindow (should_close d) (keys d) (fb_size d) (Some f).

(** A key event leaves the key released on [GLFW_RELEASE] and pressed on
    [GLFW_PRESS] and [GLFW_REPEAT]. *)
Definition set_key (key action : Z) (d : Window) : Window :=
  mkWindow (should_close d)
           (fun k => if k =? key
                     then (if action =? GLFW_RELEASE then GLFW_RELEASE else GLFW_PRESS)
                     else keys d k)
           (fb_size d) (fb_callback d).

(** A freshly created window: not closing, every key released, no callback. *)
Definition new_window (size : Z * Z) : Window :=
  mkWindow false (fun _ => GLFW_RELEASE) size None.

(** A call that only leaves its mark in the log. *)
Definition call (c : Call) : M unit := fun w => (tt, log_call c w).

Section Program.

Variable env : Env.

(** ** The library calls, by their documented effect on the world *)

(** Initialises the library; the result says whether it succeeded. *)
Definition glfwInit : M bool :=
  fun w => (env_init env, set_ready (env_init env) (log_call GlfwInit w)).

Definition glfwWindowHint (hint value : Z) : M unit :=
  call (GlfwWindowHint hint value).

(** Creates the window and its context.  The result is the null handle when
    the library is not initialised or when the window system refuses. *)
Definition glfwCreateWindow (width height : Z) (title : string)
  : M (option GLFWwindow) :=
  fun w =>
    let w' := log_call (GlfwCreateWindow width height title) w in
    if glfw_ready w then
      match env_window env with
      | Some size => (Some Handle, set_window (Some (new_window size)) w')
      | None => (None, w')
      end
    else (None, w').

(** Destroys the remaining window and shuts the library down. *)
Definition glfwTerminate : M unit :=
  fun w => (tt, set_ready false (set_window None (log_call GlfwTerminate w))).

Definition glfwMakeContextCurrent (_ : GLFWwindow) : M unit :=
  call GlfwMakeContextCurrent.

(** Loads the GL function table; the result says whether it succeeded. *)
Definition gladLoadGLLoader : M bool :=
  fun w => (env_glad env, log_call GladLoadGLLoader w).

(** Sets the viewport; a negative width or height is an error that leaves
    the viewport as it was. *)
Definition glViewport (x y width height : Z) : M unit :=
  fun w =>
    let w' := log_call (GlViewport x y width height) w in
    if (width <? 0) || (height <? 0) then (tt, w')
    else (tt, set_viewport (mkRect x y width height) w').

Definition glfwSetFramebufferSizeCallback
    (_ : GLFWwindow) (callback : GLFWframebuffersizefun) : M unit :=
  fun w =>
    (tt, update_window (set_fb_callback callback)
           (log_call (GlfwSetFramebufferSizeCallback callback) w)).

(** Reads the close flag of the window (with no window there is nothing to
    keep open; [main] never asks in that state). *)
Definition glfwWindowShouldClose (_ : GLFWwindow) : M bool :=
  fun w =>
    (match window w with Some d => should_close d | None => true end,
     log_call GlfwWindowShouldClose w).

Definition glfwSetWindowShouldClose (_ : GLFWwindow) (value : bool) : M unit :=
  fun w =>
    (tt, update_window (set_should_close value)
           (log_call (GlfwSetWindowShouldClose value) w)).

(** Last reported state of a key: [GLFW_PRESS] or [GLFW_RELEASE]. *)
Definition glfwGetKey (_ : GLFWwindow) (key : Z) : M Z :=
  fun w =>
    (match window w with Some d => keys d key | None => GLFW_RELEASE end,
     log_call (GlfwGetKey key) w).

Definition glClearColor (r g b a : Q) : M unit :=
  fun w => (tt, set_clear_color (mkColor r g b a) (log_call (GlClearColor r g b a) w)).

Definition glClear (mask : Z) : M unit := call (GlClear mask).

Definition glfwSwapBuffers (_ : GLFWwindow) : M unit := call GlfwSwapBuffers.

(** [std::cout << text]. *)
Definition cout (text : string) : M unit := call (Cout text).

(** ** The program *)

(** [framebuffer_size_callback], lines 132-134. *)
Definition framebuffer_size_callback
    (_ : GLFWwindow) (width height : Z) : M unit :=
  glViewport 0 0 width height.

(** [processInput], lines 139-145. *)
Definition processInput (window : GLFWwindow) : M unit :=
  state <- glfwGetKey window GLFW_KEY_ESCAPE ;;
  if state =? GLFW_PRESS
  then glfwSetWindowShouldClose window true
  else ret tt.

(** ** Event dispatch *)

(** The function behind a registered callback. *)
Definition invoke (f : GLFWframebuffersizefun) : GLFWwindow -> Z -> Z -> M unit :=
  match f with
  | Fn_framebuffer_size_callback => framebuffer_size_callback
  end.

(** One event: a resize updates the framebuffer size of the window and runs
    the registered callback with the new size, synchronously; a close request
    sets the close flag; a key event updates the state of that key. *)
Definition dispatch (e : Event) : M unit :=
  match e with
  | FramebufferResized width height =>
      fun w =>
        let w' := update_window (set_fb_size (width, height)) w in
        match window w' with
        | Some d =>
            match fb_callback d with
            | Some f => invoke f Handle width height w'
            | None => (tt, w')
            end
        | None => (tt, w')
        end
  | CloseRequested => fun w => (tt, update_window (set_should_close true) w)
  | KeyChanged key action => fun w => (tt, update_window (set_key key action) w)
  end.

Fixpoint dispatch_all (es : list Event) : M unit :=
  match es with
  | [] => ret tt
  | e :: es' => dispatch e ;; dispatch_all es'
  end.

(** Processes the events that are pending at this call, in order. *)
Definition glfwPollEvents : M unit :=
  fun w =>
    dispatch_all (env_events env (polls w)) (next_poll (log_call GlfwPollEvents w)).

(** ** [main], lines 26-129 *)

(** Body of the render loop, lines 92-122. *)
Definition frame (window : GLFWwindow) : M unit :=
  processInput window ;;
  glClearColor 0.5 0.2 0.3 1.0 ;;
  glClear (Z.lor GL_COLOR_BUFFER_BIT GL_DEPTH_BUFFER_BIT) ;;
  glfwSwapBuffers window ;;
  glfwPollEvents.

(** The render loop, lines 89-123.  One unit of fuel pays for one evaluation
    of the loop condition; [None] is a loop still running when the fuel is
    spent. *)
Fixpoint render_loop (fuel : nat) (window : GLFWwindow) : M (option unit) :=
  match fuel with
  | O => ret None
  | S fuel' =>
      closing <- glfwWindowShouldClose window ;;
      if closing then ret (Some tt)
      else frame window ;; render_loop fuel' window
  end.

(** Start-up, lines 29-81: [inl code] is an early [return code], [inr window]
    the handle the render loop is entered with. *)
Definition bootstrap : M (Z + GLFWwindow) :=
  _ <- glfwInit ;;
  glfwWindowHint GLFW_CONTEXT_VERSION_MAJOR 3 ;;
  glfwWindowHint GLFW_CONTEXT_VERSION_MINOR 3 ;;
  glfwWindowHint GLFW_OPENGL_PROFILE GLFW_OPENGL_CORE_PROFILE ;;
  glfwWindowHint GLFW_OPENGL_FORWARD_COMPAT GL_TRUE ;;
  let width := 800 in
  let height := 600 in
  window <- glfwCreateWindow width height "OpenGL Window" ;;
  match window with
  | None =>
      cout ("Window Creation Failed" ++ newline) ;;
      glfwTerminate ;;
      ret (inl (-1))
  | Some window =>
      glfwMakeContextCurrent window ;;
      loaded <- gladLoadGLLoader ;;
      if negb loaded then
        cout ("Failed to initialized GLAD" ++ newline) ;;
        ret (inl (-1))
      else
        glViewport 0 0 width height ;;
        glfwSetFramebufferSizeCallback window Fn_framebuffer_size_callback ;;
        ret (inr window)
  end.

(** The whole of [main]: the exit code, or [None] when the fuel is spent
    inside the render loop. *)
Definition main (fuel : nat) : M (option Z) :=
  started <- bootstrap ;;
  match started with
  | inl code => ret (Some code)
  | inr window =>
      finished <- render_loop fuel window ;;
      match finished with
      | None => ret None
      | Some _ =>
          glfwTerminate ;;
          ret (Some 0)
      end
  end.

End Program.

(** ** Reading the log and the world *)

Definition is_terminate (c : Call) : bool :=
  match c with GlfwTerminate => true | _ => false end.

Definition is_swap (c : Call) : bool :=
  match c with GlfwSwapBuffers => true | _ => false end.

Definition is_viewport (c : Call) : bool :=
  match c with GlViewport _ _ _ _ => true | _ => false end.

(** The calls that only the render loop makes: its condition and its body. *)
Definition is_loop_call (c : Call) : bool :=
  match c with
  | GlfwWindowShouldClose | GlfwGetKey _ | GlfwSetWindowShouldClose _
  | GlClearColor _ _ _ _ | GlClear _ | GlfwSwapBuffers | GlfwPollEvents => true
  | _ => false
  end.

(** How many calls of the log satisfy [p]. *)
Definition count (p : Call -> bool) (l : list Call) : nat :=
  List.length (filter p l).

(** Everything written to standard output, in order. *)
Fixpoint output (l : list Call) : string :=
  match l with
  | [] => EmptyString
  | Cout text :: l' => (text ++ output l')%string
  | _ :: l' => output l'
  end.

(** Number of line terminators in a text. *)
Fixpoint line_count (s : string) : nat :=
  match s with
  | EmptyString => O
  | String c s' =>
      if Ascii.eqb c "010"%char then S (line_count s') else line_count s'
  end.

(** The close-requested flag of the world's window. *)
Definition close_requested (w : World) : bool :=
  match window w with
  | Some d => should_close d
  | None => false
  end.

(** Whether the Escape key is currently reported as pressed. *)
Definition escape_pressed (w : World) : bool :=
  match window w with
  | Some d => keys d GLFW_KEY_ESCAPE =? GLFW_PRESS
  | None => false
  end.

(** The framebuffer-resize callback of the program is registered. *)
Definition registered (w : World) : bool :=
  match window w with
  | Some d =>
      match fb_callback d with
      | Some Fn_framebuffer_size_callback => true
      | None => false
      end
  | None => false
  end.

(** What one event does to the window. *)
Definition window_after (e : Event) (d : Window) : Window :=
  match e with
  | FramebufferResized width height => set_fb_size (width, height) d
  | CloseRequested => set_should_close true d
  | KeyChanged key action => set_key key action d
  end.

Definition is_resize (e : Event) : bool :=
  match e with FramebufferResized _ _ => true | _ => false end.

Definition is_close (e : Event) : bool :=
  match e with CloseRequested => true | _ => false end.

(** State of the Escape key after a batch of events, from its state before. *)
Definition escape_after (es : list Event) (before : bool) : bool :=
  fold_left
    (fun held e =>
       match e with
       | KeyChanged key action =>
           if key =? GLFW_KEY_ESCAPE then negb (action =? GLFW_RELEASE) else held
       | _ => held
       end)
    es before.

(** The two ways a batch of events ends the program: the window system asks
    the window to close, or the batch leaves Escape pressed. *)
Definition asks_to_close (es : list Event) : bool :=
  existsb is_close es || escape_after es false.

(** The two start-up failures the program reports. *)
Inductive Failure : Type := CreationFailure | LoadFailure.

(** The failure a run meets, if any: window creation yields the null handle
    when the library is not initialised or the window system refuses; loading
    is attempted only with a window. *)
Definition failure (env : Env) : option Failure :=
  if env_init env then
    match env_window env with
    | None => Some CreationFailure
    | Some _ => if env_glad env then None else Some LoadFailure
    end
  else Some CreationFailure.

Definition diagnostic (f : Failure) : string :=
  match f with
  | CreationFailure => "Window Creation Failed"
  | LoadFailure => "Failed to initialized GLAD"
  end.

(** The calls [main] makes up to and including window creation. *)
Definition creation_calls : list Call :=
  [GlfwInit;
   GlfwWindowHint GLFW_CONTEXT_VERSION_MAJOR 3;
   GlfwWindowHint GLFW_CONTEXT_VERSION_MINOR 3;
   GlfwWindowHint GLFW_OPENGL_PROFILE GLFW_OPENGL_CORE_PROFILE;
   GlfwWindowHint GLFW_OPENGL_FORWARD_COMPAT GL_TRUE;
   GlfwCreateWindow 800 600 "OpenGL Window"].

Open Scope list_scope.

(** What a batch of events does to the window, in order. *)
Definition window_after_all (es : list Event) (d : Window) : Window :=
  fold_left (fun d e => window_after e d) es d.

(** The window after one pass through the loop body: the input check, then
    the events of this poll. *)
Definition window_after_frame (env : Env) (w : World) (d : Window) : Window :=
  window_after_all (env_events env (polls w))
    (if escape_pressed w then set_should_close true d else d).

(** The calls of one pass through the loop body, up to and including the
    poll, given whether the input check found Escape pressed. *)
Definition frame_calls (pressed : bool) : list Call :=
  GlfwGetKey GLFW_KEY_ESCAPE ::
  (if pressed then [GlfwSetWindowShouldClose true] else []) ++
  [GlClearColor 0.5 0.2 0.3 1.0;
   GlClear (Z.lor GL_COLOR_BUFFER_BIT GL_DEPTH_BUFFER_BIT);
   GlfwSwapBuffers;
   GlfwPollEvents].

(** The loop condition as the loop reads it. *)
Definition closing (w : World) : bool := eval (glfwWindowShouldClose Handle) w.

(** Calls that the render loop and the callback it fires may make. *)
Definition loop_or_viewport (c : Call) : bool := is_loop_call c || is_viewport c.

(** The world the render loop is entered with. *)
Definition loop_entry (size : Z * Z) : World :=
  mkWorld true
          (Some (set_fb_callback Fn_framebuffer_size_callback (new_window size)))
          (mkRect 0 0 800 600) (mkColor 0 0 0 0) 0
          (creation_calls ++
           [GlfwMakeContextCurrent; GladLoadGLLoader; GlViewport 0 0 800 600;
            GlfwSetFramebufferSizeCallback Fn_framebuffer_size_callback]).

(** The call whose result reveals the failure. *)
Definition failing_call (f : Failure) : Call :=
  match f with
  | CreationFailure => GlfwCreateWindow 800 600 "OpenGL Window"
  | LoadFailure => GladLoadGLLoader
  end.

(** One evaluation of the loop condition followed by the loop body. *)
Definition iteration (env : Env) (w : World) : World :=
  exec (frame env Handle) (exec (glfwWindowShouldClose Handle) w).

(** ** Further readings of a run *)

(** The calls that go through the GL function table loaded by GLAD. *)
Definition is_gl (c : Call) : bool :=
  match c with
  | GlViewport _ _ _ _ | GlClearColor _ _ _ _ | GlClear _ => true
  | _ => false
  end.

Definition is_cout (c : Call) : bool :=
  match c with Cout _ => true | _ => false end.

(** The loop is running and Escape is not held: nothing is on its way to
    end the loop. *)
Definition idle (w : World) : bool := negb (closing w) && negb (escape_pressed w).

(** A resize event with a width and a height that are not negative; every
    other event. *)
Definition resize_ok (e : Event) : bool :=
  match e with
  | FramebufferResized width height => (0 <=? width) && (0 <=? height)
  | _ => true
  end.

(** The viewport covers exactly the framebuffer of the window. *)
Definition fills_framebuffer (w : World) : Prop :=
  exists d, window w = Some d /\
            viewport w = mkRect 0 0 (fst (fb_size d)) (snd (fb_size d)).

(** Events that are neither a close request nor about the Escape key. *)
Definition harmless (e : Event) : bool :=
  match e with
  | FramebufferResized _ _ => true
  | CloseRequested => false
  | KeyChanged key _ => negb (key =? GLFW_KEY_ESCAPE)
  end.

(** Number of frames presented: the buffer swaps in the log. *)
Definition frames (w : World) : nat := count is_swap (log w).

(** * Verification *)

(** ** Basic facts *)

Lemma exec_bind {A B : Type} (c : M A) (k : A -> M B) (w : World) :
  exec (bind c k) w = exec (k (eval c w)) (exec c w).
Proof. reflexivity. Qed.

Lemma eval_bind {A B : Type} (c : M A) (k : A -> M B) (w : World) :
  eval (bind c k) w = eval (k (eval c w)) (exec c w).
Proof. reflexivity. Qed.

Lemma count_app (p : Call -> bool) (l1 l2 : list Call) :
  count p (l1 ++ l2) = (count p l1 + count p l2)%nat.
Proof. unfold count. now rewrite filter_app, length_app. Qed.

Lemma count_none (p : Call -> bool) (l : list Call) :
  Forall (fun c => p c = false) l -> count p l = 0%nat.
Proof.
  unfold count. induction 1 as [|c l Hc _ IH]; simpl; [reflexivity|].
  now rewrite Hc.
Qed.

(** *** The Viewport Synchronizer *)

Lemma glViewport_exec (x y width height : Z) (w : World) :
  0 <= width -> 0 <= height ->
  exec (glViewport x y width height) w =
  set_viewport (mkRect x y width height) (log_call (GlViewport x y width height) w).
Proof.
  intros Hw Hh. unfold exec, glViewport.
  destruct (width <? 0) eqn:Ew; [apply Z.ltb_lt in Ew; lia|].
  destruct (height <? 0) eqn:Eh; [apply Z.ltb_lt in Eh; lia|].
  reflexivity.
Qed.

(** Whatever its arguments, [glViewport] touches the viewport and the log
    only, and logs itself. *)
Lemma glViewport_frame (x y width height : Z) (w : World) :
  let w' := exec (glViewport x y width height) w in
  glfw_ready w' = glfw_ready w /\ window w' = window w /\
  clear_color w' = clear_color w /\ polls w' = polls w /\
  log w' = log w ++ [GlViewport x y width height].
Proof.
  unfold exec, glViewport.
  destruct ((width <? 0) || (height <? 0)); cbn; repeat split.
Qed.

(** *** Event dispatch *)

Lemma dispatch_window (e : Event) (w : World) :
  window (exec (dispatch e) w) = option_map (window_after e) (window w).
Proof.
  destruct e as [width height| |key action]; try reflexivity.
  destruct w as [rdy [d|] vp cc n l]; [|reflexivity].
  unfold exec, dispatch; cbn.
  destruct (fb_callback d) as [[]|]; cbn; [|reflexivity].
  apply (glViewport_frame 0 0 width height).
Qed.

(** Dispatching an event leaves the library state, the clear colour and the
    poll counter alone, and the only calls it makes are [glViewport] calls. *)
Lemma dispatch_frame (e : Event) (w : World) :
  let w' := exec (dispatch e) w in
  glfw_ready w' = glfw_ready w /\ clear_color w' = clear_color w /\
  polls w' = polls w /\
  exists fired, log w' = log w ++ fired /\ Forall (fun c => is_viewport c = true) fired.
Proof.
  assert (Hnil : exists fired,
             log w = log w ++ fired /\ Forall (fun c => is_viewport c = true) fired)
    by (exists []; split; [now rewrite app_nil_r | constructor]).
  destruct e as [width height| |key action]; cbn; try (repeat split; exact Hnil).
  destruct w as [rdy [d|] vp cc n l]; [|repeat split; exact Hnil].
  unfold exec, dispatch; cbn.
  destruct (fb_callback d) as [[]|]; cbn; [|repeat split; exact Hnil].
  unfold framebuffer_size_callback, glViewport; cbn.
  destruct ((width <? 0) || (height <? 0)); cbn; repeat split;
    eexists; (split; [reflexivity | repeat constructor]).
Qed.

Lemma dispatch_all_window (es : list Event) (w : World) :
  window (exec (dispatch_all es) w) =
  option_map (fun d => fold_left (fun d e => window_after e d) es d) (window w).
Proof.
  revert w. induction es as [|e es IH]; intro w; cbn.
  - now destruct (window w).
  - rewrite exec_bind, IH, dispatch_window. now destruct (window w).
Qed.

Lemma dispatch_all_frame (es : list Event) (w : World) :
  let w' := exec (dispatch_all es) w in
  glfw_ready w' = glfw_ready w /\ clear_color w' = clear_color w /\
  polls w' = polls w /\
  exists fired, log w' = log w ++ fired /\ Forall (fun c => is_viewport c = true) fired.
Proof.
  revert w. induction es as [|e es IH]; intro w; cbn.
  - repeat split. exists []. split; [now rewrite app_nil_r | constructor].
  - rewrite exec_bind.
    destruct (IH (exec (dispatch e) w)) as (H1 & H2 & H3 & l2 & H4 & H5).
    destruct (dispatch_frame e w) as (G1 & G2 & G3 & l1 & G4 & G5).
    cbn in *. repeat split; try congruence.
    exists (l1 ++ l2). split.
    + rewrite H4, G4. now rewrite app_assoc.
    + apply Forall_app. now split.
Qed.

(** *** Effect of a batch of events on the window *)

Lemma close_flag_sticks (es : list Event) (d : Window) :
  should_close d = true -> should_close (window_after_all es d) = true.
Proof.
  unfold window_after_all. revert d.
  induction es as [|e es IH]; intros d Hd; cbn; [exact Hd|].
  apply IH. now destruct e.
Qed.

Lemma close_event_sets_flag (es : list Event) (d : Window) :
  existsb is_close es = true -> should_close (window_after_all es d) = true.
Proof.
  unfold window_after_all. revert d.
  induction es as [|e es IH]; intros d He; cbn in *; [discriminate|].
  destruct e; cbn in *; try (now apply IH).
  now apply (close_flag_sticks es).
Qed.

Lemma escape_state_after (es : list Event) (d : Window) :
  (keys (window_after_all es d) GLFW_KEY_ESCAPE =? GLFW_PRESS) =
  escape_after es (keys d GLFW_KEY_ESCAPE =? GLFW_PRESS).
Proof.
  unfold window_after_all, escape_after. revert d.
  induction es as [|e es IH]; intro d; cbn; [reflexivity|].
  rewrite IH. f_equal.
  destruct e as [width height| |key action]; try reflexivity.
  unfold window_after, set_key; cbn [keys].
  rewrite (Z.eqb_sym GLFW_KEY_ESCAPE key).
  destruct (key =? GLFW_KEY_ESCAPE); [|reflexivity].
  now destruct (action =? GLFW_RELEASE).
Qed.

(** *** The input check and the loop body *)

Lemma processInput_exec (w : World) :
  exec (processInput Handle) w =
  mkWorld (glfw_ready w)
          (if escape_pressed w
           then option_map (set_should_close true) (window w)
           else window w)
          (viewport w) (clear_color w) (polls w)
          (log w ++ GlfwGetKey GLFW_KEY_ESCAPE ::
             (if escape_pressed w then [GlfwSetWindowShouldClose true] else [])).
Proof.
  destruct w as [rdy [d|] vp cc n l]; unfold exec, processInput, bind, escape_pressed;
    cbn [fst snd glfwGetKey window].
  - destruct (keys d GLFW_KEY_ESCAPE =? GLFW_PRESS); cbn.
    + unfold update_window, set_window, log_call; cbn. now rewrite <- app_assoc.
    + reflexivity.
  - reflexivity.
Qed.

(** The loop body runs the four steps and then dispatches the events of this
    poll. *)
Lemma frame_exec (env : Env) (w : World) :
  exec (frame env Handle) w =
  exec (dispatch_all (env_events env (polls w)))
       (mkWorld (glfw_ready w)
                (if escape_pressed w
                 then option_map (set_should_close true) (window w)
                 else window w)
                (viewport w) (mkColor 0.5 0.2 0.3 1.0) (S (polls w))
                (log w ++ frame_calls (escape_pressed w))).
Proof.
  unfold frame. rewrite exec_bind, processInput_exec.
  unfold exec, bind, glfwPollEvents, frame_calls; cbn [fst snd].
  f_equal. f_equal.
  unfold glClearColor, glClear, glfwSwapBuffers, call, log_call, set_clear_color,
    next_poll; cbn.
  f_equal. destruct (escape_pressed w); cbn; repeat rewrite <- app_assoc; reflexivity.
Qed.

Lemma frame_window (env : Env) (w : World) :
  window (exec (frame env Handle) w) =
  option_map (window_after_frame env w) (window w).
Proof.
  rewrite frame_exec, dispatch_all_window. cbn [window].
  unfold window_after_frame, window_after_all.
  destruct (escape_pressed w), (window w); reflexivity.
Qed.

Lemma frame_polls (env : Env) (w : World) :
  polls (exec (frame env Handle) w) = S (polls w).
Proof.
  rewrite frame_exec.
  now destruct (dispatch_all_frame (env_events env (polls w))
    (mkWorld (glfw_ready w)
                (if escape_pressed w
                 then option_map (set_should_close true) (window w)
                 else window w)
                (viewport w) (mkColor 0.5 0.2 0.3 1.0) (S (polls w))
                (log w ++ frame_calls (escape_pressed w)))) as (_ & _ & H & _).
Qed.

Lemma frame_log (env : Env) (w : World) :
  exists fired,
    log (exec (frame env Handle) w) =
      log w ++ frame_calls (escape_pressed w) ++ fired /\
    Forall (fun c => is_viewport c = true) fired.
Proof.
  rewrite frame_exec.
  destruct (dispatch_all_frame (env_events env (polls w))
    (mkWorld (glfw_ready w)
                (if escape_pressed w
                 then option_map (set_should_close true) (window w)
                 else window w)
                (viewport w) (mkColor 0.5 0.2 0.3 1.0) (S (polls w))
                (log w ++ frame_calls (escape_pressed w)))) as (_ & _ & _ & fired & H & F).
  exists fired. cbn [log] in H. rewrite H. now rewrite <- app_assoc.
Qed.

(** *** The render loop *)

Lemma render_loop_closed (env : Env) (fuel : nat) (w : World) :
  closing w = true ->
  render_loop env (S fuel) Handle w = (Some tt, log_call GlfwWindowShouldClose w).
Proof.
  intro H. cbn [render_loop]. unfold bind.
  change (fst (glfwWindowShouldClose Handle w)) with (closing w).
  now rewrite H.
Qed.

Lemma render_loop_open (env : Env) (fuel : nat) (w : World) :
  closing w = false ->
  render_loop env (S fuel) Handle w =
  render_loop env fuel Handle
    (exec (frame env Handle) (log_call GlfwWindowShouldClose w)).
Proof.
  intro H. cbn [render_loop]. unfold bind at 1.
  change (fst (glfwWindowShouldClose Handle w)) with (closing w).
  now rewrite H.
Qed.

Lemma closing_window (w : World) (d : Window) :
  window w = Some d -> closing w = should_close d.
Proof. intro H. unfold closing, eval, glfwWindowShouldClose; cbn. now rewrite H. Qed.

Lemma render_loop_log (env : Env) (fuel : nat) (w : World) :
  exists added,
    log (exec (render_loop env fuel Handle) w) = log w ++ added /\
    Forall (fun c => loop_or_viewport c = true) added.
Proof.
  revert w. induction fuel as [|fuel IH]; intro w.
  - exists []. split; [cbn; now rewrite app_nil_r | constructor].
  - destruct (closing w) eqn:E.
    + unfold exec. rewrite render_loop_closed by exact E.
      exists [GlfwWindowShouldClose]. split; [reflexivity | repeat constructor].
    + unfold exec. rewrite render_loop_open by exact E.
      destruct (IH (exec (frame env Handle) (log_call GlfwWindowShouldClose w)))
        as (l2 & H2 & F2).
      destruct (frame_log env (log_call GlfwWindowShouldClose w)) as (l1 & H1 & F1).
      unfold exec in *. rewrite H2, H1. cbn [log log_call].
      exists ([GlfwWindowShouldClose] ++
              frame_calls (escape_pressed (log_call GlfwWindowShouldClose w)) ++
              l1 ++ l2).
      split; [repeat rewrite <- app_assoc; reflexivity|].
      repeat (apply Forall_app; split); try exact F2.
      * repeat constructor.
      * unfold frame_calls. destruct (escape_pressed _); repeat constructor.
      * eapply Forall_impl; [|exact F1]. intros c Hc. unfold loop_or_viewport.
        rewrite Hc. apply orb_true_r.
Qed.

Lemma check_window (w : World) :
  window (log_call GlfwWindowShouldClose w) = window w.
Proof. reflexivity. Qed.

Lemma check_escape (w : World) :
  escape_pressed (log_call GlfwWindowShouldClose w) = escape_pressed w.
Proof. reflexivity. Qed.

(** The window after the loop condition was found false and the body ran. *)
Lemma iteration_window (env : Env) (w : World) (d : Window) :
  window w = Some d ->
  window (exec (frame env Handle) (log_call GlfwWindowShouldClose w)) =
  Some (window_after_frame env w d).
Proof.
  intro H. rewrite frame_window, check_window, H. reflexivity.
Qed.

Lemma iteration_polls (env : Env) (w : World) :
  polls (exec (frame env Handle) (log_call GlfwWindowShouldClose w)) = S (polls w).
Proof. now rewrite frame_polls. Qed.

Lemma loop_stops_when_closed (env : Env) (w : World) (d : Window) (fuel : nat) :
  window w = Some d -> should_close d = true -> (1 <= fuel)%nat ->
  eval (render_loop env fuel Handle) w = Some tt.
Proof.
  intros Hw Hd Hf. destruct fuel as [|fuel]; [lia|].
  unfold eval. rewrite render_loop_closed; [reflexivity|].
  now rewrite (closing_window w d).
Qed.

Lemma loop_stops_when_escape_held (env : Env) (w : World) (d : Window) (fuel : nat) :
  window w = Some d -> (keys d GLFW_KEY_ESCAPE =? GLFW_PRESS) = true ->
  (2 <= fuel)%nat ->
  eval (render_loop env fuel Handle) w = Some tt.
Proof.
  intros Hw Hk Hf. destruct fuel as [|fuel]; [lia|].
  destruct (should_close d) eqn:Hd.
  - apply (loop_stops_when_closed env w d); [assumption..|lia].
  - unfold eval. rewrite render_loop_open by now rewrite (closing_window w d).
    apply (loop_stops_when_closed env _ (window_after_frame env w d));
      [now apply iteration_window | | lia].
    unfold window_after_frame, escape_pressed. rewrite Hw, Hk.
    now apply close_flag_sticks.
Qed.

(** Once a poll delivers a close request or leaves Escape pressed, the loop
    ends within three more evaluations of its condition. *)
Lemma render_loop_finishes (env : Env) (k : nat) :
  forall (w : World) (d : Window) (fuel : nat),
    window w = Some d ->
    asks_to_close (env_events env (polls w + k)) = true ->
    (k + 3 <= fuel)%nat ->
    eval (render_loop env fuel Handle) w = Some tt.
Proof.
  induction k as [|k IH]; intros w d fuel Hw Hask Hf;
    (destruct fuel as [|fuel]; [lia|]);
    (destruct (should_close d) eqn:Hd;
      [apply (loop_stops_when_closed env w d); [assumption..|lia]|]);
    unfold eval; rewrite render_loop_open by (now rewrite (closing_window w d)).
  - rewrite Nat.add_0_r in Hask. unfold asks_to_close in Hask.
    apply orb_true_iff in Hask. destruct Hask as [Hc|He].
    + apply (loop_stops_when_closed env _ (window_after_frame env w d));
        [now apply iteration_window | | lia].
      now apply close_event_sets_flag.
    + destruct (escape_pressed w) eqn:Hp.
      * apply (loop_stops_when_closed env _ (window_after_frame env w d));
          [now apply iteration_window | | lia].
        unfold window_after_frame. rewrite Hp. now apply close_flag_sticks.
      * apply (loop_stops_when_escape_held env _ (window_after_frame env w d));
          [now apply iteration_window | | lia].
        unfold window_after_frame. rewrite Hp, escape_state_after.
        unfold escape_pressed in Hp. rewrite Hw in Hp. now rewrite Hp.
  - apply (IH _ (window_after_frame env w d));
      [now apply iteration_window | | lia].
    rewrite iteration_polls. now rewrite Nat.add_succ_comm.
Qed.

(** *** Start-up *)

Lemma bootstrap_creation_failure (env : Env) :
  failure env = Some CreationFailure ->
  bootstrap env startup =
  (inl (-1),
   mkWorld false None (mkRect 0 0 0 0) (mkColor 0 0 0 0) 0
           (creation_calls ++
            [Cout ("Window Creation Failed" ++ newline)%string; GlfwTerminate])).
Proof.
  destruct env as [[|] [size|] [|] events]; cbn; try discriminate; reflexivity.
Qed.

Lemma bootstrap_load_failure (env : Env) :
  failure env = Some LoadFailure ->
  exists size,
    env_window env = Some size /\
    bootstrap env startup =
    (inl (-1),
     mkWorld true (Some (new_window size)) (mkRect 0 0 0 0) (mkColor 0 0 0 0) 0
             (creation_calls ++
              [GlfwMakeContextCurrent; GladLoadGLLoader;
               Cout ("Failed to initialized GLAD" ++ newline)%string])).
Proof.
  destruct env as [[|] [size|] [|] events]; cbn; try discriminate.
  intros _. exists size. split; reflexivity.
Qed.

Lemma bootstrap_success (env : Env) :
  failure env = None ->
  exists size,
    env_window env = Some size /\
    bootstrap env startup = (inr Handle, loop_entry size).
Proof.
  destruct env as [[|] [size|] [|] events]; cbn; try discriminate.
  intros _. exists size. split; reflexivity.
Qed.

(** The bootstrapper hands a window to the render loop exactly when no
    start-up failure occurs. *)
Lemma bootstrap_succeeds_iff (env : Env) :
  (exists window, eval (bootstrap env) startup = inr window) <-> failure env = None.
Proof.
  destruct env as [[|] [size|] [|] events]; cbn; split;
    try reflexivity; try discriminate;
    try (intros [h H]; discriminate H); intros _; now exists Handle.
Qed.

(** *** Resize events in a batch *)

Lemma dispatch_all_app (es1 es2 : list Event) (w : World) :
  exec (dispatch_all (es1 ++ es2)) w =
  exec (dispatch_all es2) (exec (dispatch_all es1) w).
Proof.
  revert w. induction es1 as [|e es1 IH]; intro w; [reflexivity|].
  cbn [app dispatch_all]. now rewrite !exec_bind, IH.
Qed.

Lemma callback_kept (es : list Event) (d : Window) :
  fb_callback (window_after_all es d) = fb_callback d.
Proof.
  unfold window_after_all. revert d.
  induction es as [|e es IH]; intro d; cbn; [reflexivity|].
  rewrite IH. now destruct e.
Qed.

Lemma registered_kept (es : list Event) (w : World) :
  registered w = true -> registered (exec (dispatch_all es) w) = true.
Proof.
  unfold registered. rewrite dispatch_all_window.
  destruct (window w) as [d|]; cbn; [|discriminate].
  fold (window_after_all es d). now rewrite callback_kept.
Qed.

(** A resize event handed to a window with the callback registered: the
    window takes the new size and the callback sets the viewport to it. *)
Lemma dispatch_resize (w : World) (width height : Z) :
  registered w = true -> 0 <= width -> 0 <= height ->
  let w' := exec (dispatch (FramebufferResized width height)) w in
  viewport w' = mkRect 0 0 width height /\
  exists d, window w' = Some d /\ fb_size d = (width, height).
Proof.
  intros Hr Hw Hh. unfold registered in Hr.
  destruct w as [rdy [d|] vp cc n l]; cbn in Hr; [|discriminate].
  destruct (fb_callback d) as [[]|] eqn:Hc; [|discriminate].
  unfold exec, dispatch; cbn. rewrite Hc. cbn.
  unfold framebuffer_size_callback.
  change (snd (glViewport 0 0 width height ?v)) with (exec (glViewport 0 0 width height) v).
  rewrite glViewport_exec by assumption. cbn.
  split; [reflexivity|]. eexists; split; reflexivity.
Qed.

(** Events other than resizes leave the viewport and the framebuffer size as
    they are. *)
Lemma other_events_keep_size (es : list Event) (w : World) :
  existsb is_resize es = false ->
  viewport (exec (dispatch_all es) w) = viewport w /\
  option_map fb_size (window (exec (dispatch_all es) w)) = option_map fb_size (window w).
Proof.
  revert w. induction es as [|e es IH]; intros w Hes; [split; reflexivity|].
  cbn in Hes. apply orb_false_iff in Hes. destruct Hes as [He Hes].
  cbn [dispatch_all]. rewrite exec_bind.
  destruct (IH (exec (dispatch e) w) Hes) as [H1 H2]. rewrite H1, H2.
  destruct e; try discriminate; unfold exec; cbn; (split; [reflexivity|]);
    now destruct (window w).
Qed.

(** The callback registered at start-up stays registered through every
    iteration of the render loop. *)
Lemma registered_in_loop (env : Env) (size : Z * Z) (n : nat) :
  registered (Nat.iter n (iteration env) (loop_entry size)) = true.
Proof.
  induction n as [|n IH]; [reflexivity|].
  rewrite Nat.iter_succ. unfold iteration at 1.
  change (exec (glfwWindowShouldClose Handle) ?v)
    with (log_call GlfwWindowShouldClose v).
  unfold registered in *. rewrite frame_window, check_window.
  destruct (window (Nat.iter n (iteration env) (loop_entry size))) as [d|];
    [|discriminate].
  cbn [option_map]. unfold window_after_frame. rewrite callback_kept.
  now destruct (escape_pressed _).
Qed.

(** *** Whole runs *)

Lemma main_early_return (env : Env) (fuel : nat) (code : Z) (w : World) :
  bootstrap env startup = (inl code, w) ->
  main env fuel startup = (Some code, w).
Proof. intro H. unfold main, bind. now rewrite H. Qed.

Lemma main_enters_loop (env : Env) (fuel : nat) (w : World) :
  bootstrap env startup = (inr Handle, w) ->
  main env fuel startup =
  match eval (render_loop env fuel Handle) w with
  | None => (None, exec (render_loop env fuel Handle) w)
  | Some _ =>
      (Some 0, exec glfwTerminate (exec (render_loop env fuel Handle) w))
  end.
Proof.
  intro H. unfold main, bind. rewrite H. cbn [fst snd]. unfold eval, exec.
  now destruct (fst (render_loop env fuel Handle w)).
Qed.

(** Window creation yields the null handle exactly in the runs classified as
    creation failures. *)
Lemma null_handle_iff (env : Env) (w : World) (width height : Z) (title : string) :
  glfw_ready w = env_init env ->
  eval (glfwCreateWindow env width height title) w = None <->
  failure env = Some CreationFailure.
Proof.
  intro H. unfold eval, glfwCreateWindow, failure. rewrite H.
  destruct (env_init env), (env_window env), (env_glad env); cbn;
    split; congruence.
Qed.

(** *** Normal termination *)

(** A run that leaves the render loop returns 0 after exactly one teardown. *)
Lemma main_after_loop (env : Env) (fuel : nat) (size : Z * Z) :
  bootstrap env startup = (inr Handle, loop_entry size) ->
  eval (render_loop env fuel Handle) (loop_entry size) = Some tt ->
  eval (main env fuel) startup = Some 0 /\
  count is_terminate (log (exec (main env fuel) startup)) = 1%nat.
Proof.
  intros E Hl. unfold eval at 1, exec at 1.
  rewrite (main_enters_loop env fuel _ E), Hl. cbn [fst snd].
  split; [reflexivity|].
  destruct (render_loop_log env fuel (loop_entry size)) as (added & H & F).
  change (log (exec glfwTerminate ?v)) with (log v ++ [GlfwTerminate]).
  rewrite H, !count_app, (count_none is_terminate added).
  - reflexivity.
  - eapply Forall_impl; [|exact F]. intros c Hc. now destruct c.
Qed.

(** ** The claims *)

(** C1, as the code has it. On either start-up failure the process returns
    -1 and prints exactly one line, the diagnostic of that failure, directly
    after the failing call. After a window-creation failure it invokes the
    library teardown once before returning; after a function-table load
    failure it returns without teardown. *)
Theorem startup_failure_report (env : Env) (fuel : nat) (f : Failure) :
  failure env = Some f ->
  let code := eval (main env fuel) startup in
  let calls := log (exec (main env fuel) startup) in
  code = Some (-1) /\
  (exists before after,
      calls = before ++ [failing_call f; Cout (diagnostic f ++ newline)%string] ++ after /\
      output before = EmptyString /\ output after = EmptyString) /\
  line_count (output calls) = 1%nat /\
  count is_terminate calls =
    match f with CreationFailure => 1%nat | LoadFailure => 0%nat end.
Proof.
  intros Hf code calls. subst code calls. unfold eval, exec.
  destruct f.
  - rewrite (main_early_return env fuel _ _ (bootstrap_creation_failure env Hf)).
    cbn [fst snd log]. split; [reflexivity|]. split; [|split; reflexivity].
    exists (removelast creation_calls), [GlfwTerminate]. repeat split.
  - destruct (bootstrap_load_failure env Hf) as (size & _ & E).
    rewrite (main_early_return env fuel _ _ E).
    cbn [fst snd log]. split; [reflexivity|]. split; [|split; reflexivity].
    exists (creation_calls ++ [GlfwMakeContextCurrent]), []. repeat split.
Qed.

Lemma startup_failure_report_witness :
  let refused := mkEnv true None true (fun _ => []) in
  let unloaded := mkEnv true (Some (800, 600)) false (fun _ => []) in
  (failure refused = Some CreationFailure /\
   count is_terminate (log (exec (main refused 5) startup)) = 1%nat) /\
  (failure unloaded = Some LoadFailure /\
   count is_terminate (log (exec (main unloaded 5) startup)) = 0%nat).
Proof.
  intros refused unloaded. split; (split; [reflexivity|]).
  - exact (proj2 (proj2 (proj2
      (startup_failure_report refused 5 CreationFailure eq_refl)))).
  - exact (proj2 (proj2 (proj2
      (startup_failure_report unloaded 5 LoadFailure eq_refl)))).
Defined.

(** C1 as stated does not hold: when the window system refuses the window,
    the process returns -1 after having invoked the library teardown. *)
Lemma creation_failure_runs_teardown :
  let refused := mkEnv true None true (fun _ => []) in
  failure refused = Some CreationFailure /\
  eval (main refused 0) startup = Some (-1) /\
  log (exec (main refused 0) startup) =
    [GlfwInit;
     GlfwWindowHint GLFW_CONTEXT_VERSION_MAJOR 3;
     GlfwWindowHint GLFW_CONTEXT_VERSION_MINOR 3;
     GlfwWindowHint GLFW_OPENGL_PROFILE GLFW_OPENGL_CORE_PROFILE;
     GlfwWindowHint GLFW_OPENGL_FORWARD_COMPAT GL_TRUE;
     GlfwCreateWindow 800 600 "OpenGL Window";
     Cout ("Window Creation Failed" ++ newline)%string;
     GlfwTerminate] /\
  count is_terminate (log (exec (main refused 0) startup)) = 1%nat.
Proof. repeat split. Qed.

(** C2, as the code has it. The result of the library initialisation is never
    inspected: when it fails, the bootstrapper still sets the four context
    hints and calls window creation; creation then yields the null handle, and
    the process prints the creation diagnostic, invokes the teardown and
    returns -1. *)
Theorem failed_init_fails_at_creation (env : Env) (fuel : nat) :
  env_init env = false ->
  eval (main env fuel) startup = Some (-1) /\
  log (exec (main env fuel) startup) =
    [GlfwInit;
     GlfwWindowHint GLFW_CONTEXT_VERSION_MAJOR 3;
     GlfwWindowHint GLFW_CONTEXT_VERSION_MINOR 3;
     GlfwWindowHint GLFW_OPENGL_PROFILE GLFW_OPENGL_CORE_PROFILE;
     GlfwWindowHint GLFW_OPENGL_FORWARD_COMPAT GL_TRUE;
     GlfwCreateWindow 800 600 "OpenGL Window";
     Cout ("Window Creation Failed" ++ newline)%string;
     GlfwTerminate] /\
  output (log (exec (main env fuel) startup)) =
    ("Window Creation Failed" ++ newline)%string.
Proof.
  intro Hi.
  assert (Hf : failure env = Some CreationFailure)
    by (unfold failure; now rewrite Hi).
  unfold eval, exec.
  rewrite (main_early_return env fuel _ _ (bootstrap_creation_failure env Hf)).
  repeat split.
Qed.

Lemma failed_init_fails_at_creation_witness :
  let dead := mkEnv false (Some (800, 600)) true (fun _ => []) in
  env_init dead = false /\ eval (main dead 7) startup = Some (-1).
Proof.
  intro dead. split; [reflexivity|].
  exact (proj1 (failed_init_fails_at_creation dead 7 eq_refl)).
Defined.

(** C2 as stated does not hold: with the initialisation failing, the hints
    are set and window creation is called all the same. *)
Lemma failed_init_still_reaches_creation :
  let dead := mkEnv false (Some (800, 600)) true (fun _ => []) in
  eval (glfwInit dead) startup = false /\
  log (exec (bootstrap dead) startup) =
    [GlfwInit;
     GlfwWindowHint GLFW_CONTEXT_VERSION_MAJOR 3;
     GlfwWindowHint GLFW_CONTEXT_VERSION_MINOR 3;
     GlfwWindowHint GLFW_OPENGL_PROFILE GLFW_OPENGL_CORE_PROFILE;
     GlfwWindowHint GLFW_OPENGL_FORWARD_COMPAT GL_TRUE;
     GlfwCreateWindow 800 600 "OpenGL Window";
     Cout ("Window Creation Failed" ++ newline)%string;
     GlfwTerminate].
Proof. split; reflexivity. Qed.


(** C3. For a resize to a non-negative [width] x [height], the Viewport
    Synchronizer leaves the viewport at exactly (0, 0, width, height); running
    it a second time with the same size changes neither the viewport nor any
    other part of the state; and once a poll has processed that resize (as the
    last resize of its batch, with the callback registered), the viewport
    extent equals the framebuffer size of the window. *)
Theorem viewport_follows_resize (w : World) (width height : Z) :
  0 <= width -> 0 <= height ->
  let once := exec (framebuffer_size_callback Handle width height) w in
  let twice := exec (framebuffer_size_callback Handle width height) once in
  viewport once = mkRect 0 0 width height /\
  (viewport twice = viewport once /\ window twice = window once /\
   clear_color twice = clear_color once /\ glfw_ready twice = glfw_ready once) /\
  (forall before after : list Event,
      registered w = true ->
      existsb is_resize after = false ->
      let polled :=
        exec (dispatch_all (before ++ FramebufferResized width height :: after)) w in
      viewport polled = mkRect 0 0 width height /\
      exists d, window polled = Some d /\
                fb_size d = (rwidth (viewport polled), rheight (viewport polled))).
Proof.
  intros Hw Hh once twice. subst once twice.
  unfold framebuffer_size_callback. rewrite !glViewport_exec by assumption.
  split; [reflexivity|]. split; [repeat split|].
  intros before after Hr Hafter.
  rewrite dispatch_all_app. cbn [dispatch_all]. rewrite exec_bind.
  pose proof (registered_kept before w Hr) as Hr'.
  destruct (dispatch_resize _ width height Hr' Hw Hh) as (Hv & d & Hd & Hs).
  set (resized := exec (dispatch (FramebufferResized width height))
                        (exec (dispatch_all before) w)) in *.
  destruct (other_events_keep_size after resized Hafter) as [Kv Ks].
  rewrite Kv, Hv. split; [reflexivity|].
  rewrite Hd in Ks.
  destruct (window (exec (dispatch_all after) resized)) as [d'|]; [|discriminate].
  exists d'. split; [reflexivity|]. cbn in *. congruence.
Qed.

Lemma viewport_follows_resize_witness :
  let w := mkWorld true
             (Some (set_fb_callback Fn_framebuffer_size_callback (new_window (800, 600))))
             (mkRect 0 0 800 600) (mkColor 0 0 0 0) 0 [] in
  (0 <= 1024 /\ 0 <= 768) /\
  viewport (exec (framebuffer_size_callback Handle 1024 768) w) = mkRect 0 0 1024 768 /\
  viewport (exec (dispatch_all [KeyChanged 65 1; FramebufferResized 1024 768; CloseRequested]) w)
  = mkRect 0 0 1024 768.
Proof.
  intro w. split; [lia|].
  destruct (viewport_follows_resize w 1024 768 ltac:(lia) ltac:(lia)) as (H1 & _ & H3).
  split; [exact H1|].
  exact (proj1 (H3 [KeyChanged 65 1] [CloseRequested] eq_refl eq_refl)).
Defined.

(** C4. Whenever the bootstrapper succeeds, that is, hands a window to the
    render loop, the viewport in the world the loop is entered with has origin
    (0, 0) and extent (800, 600). *)
Theorem viewport_at_loop_entry (env : Env) (window : GLFWwindow) :
  eval (bootstrap env) startup = inr window ->
  viewport (exec (bootstrap env) startup) = mkRect 0 0 800 600.
Proof.
  intro H.
  assert (F : failure env = None)
    by (apply bootstrap_succeeds_iff; now exists window).
  destruct (bootstrap_success env F) as (size & _ & E).
  unfold exec. now rewrite E.
Qed.

Lemma viewport_at_loop_entry_witness :
  let env := mkEnv true (Some (1600, 1200)) true (fun _ => []) in
  eval (bootstrap env) startup = inr Handle /\
  viewport (exec (bootstrap env) startup) = mkRect 0 0 800 600.
Proof.
  intro env. split; [reflexivity|].
  apply (viewport_at_loop_entry env Handle). reflexivity.
Defined.

(** *** Iterations of the loop *)

(** As long as the loop condition is found false, the loop goes through its
    iterations one by one. *)
Lemma render_loop_iterations (env : Env) (n : nat) :
  forall (fuel : nat) (w : World),
    (forall i, (i < n)%nat -> closing (Nat.iter i (iteration env) w) = false) ->
    render_loop env (n + fuel) Handle w =
    render_loop env fuel Handle (Nat.iter n (iteration env) w).
Proof.
  induction n as [|n IH]; intros fuel w Hopen; [reflexivity|].
  cbn [Nat.add]. rewrite render_loop_open by (apply (Hopen 0%nat); lia).
  change (exec (frame env Handle) (log_call GlfwWindowShouldClose w))
    with (iteration env w).
  rewrite IH.
  - now rewrite Nat.iter_succ_r.
  - intros i Hi. rewrite <- Nat.iter_succ_r. apply Hopen. lia.
Qed.

(** C5. Every iteration of the render loop that is entered with the window
    not closing performs exactly these steps, in this order, and the loop's
    own log shows them: after the loop condition, the Escape key is read and,
    if it is pressed, the close flag is set; the clear colour is set to
    (0.5, 0.2, 0.3, 1.0) and the buffers are cleared with a mask that has both
    the colour and the depth bit; the buffers are swapped; the events are
    polled, during which only the Viewport Synchronizer makes further calls.
    [entered] is the world at the start of iteration [n] (counted from 0) and
    [rest] is what the loop does after that iteration. *)
Theorem frame_steps (env : Env) (n fuel : nat) (w : World) :
  (forall i, (i <= n)%nat -> closing (Nat.iter i (iteration env) w) = false) ->
  let entered := Nat.iter n (iteration env) w in
  exists fired rest,
    log (exec (render_loop env (S (n + fuel)) Handle) w) =
      log entered ++
      [GlfwWindowShouldClose; GlfwGetKey GLFW_KEY_ESCAPE] ++
      (if escape_pressed entered then [GlfwSetWindowShouldClose true] else []) ++
      [GlClearColor 0.5 0.2 0.3 1.0;
       GlClear (Z.lor GL_COLOR_BUFFER_BIT GL_DEPTH_BUFFER_BIT);
       GlfwSwapBuffers;
       GlfwPollEvents] ++
      fired ++ rest /\
    Forall (fun c => is_viewport c = true) fired /\
    Forall (fun c => loop_or_viewport c = true) rest /\
    log (iteration env entered) =
      log entered ++
      [GlfwWindowShouldClose; GlfwGetKey GLFW_KEY_ESCAPE] ++
      (if escape_pressed entered then [GlfwSetWindowShouldClose true] else []) ++
      [GlClearColor 0.5 0.2 0.3 1.0;
       GlClear (Z.lor GL_COLOR_BUFFER_BIT GL_DEPTH_BUFFER_BIT);
       GlfwSwapBuffers;
       GlfwPollEvents] ++
      fired /\
    render_loop env (S (n + fuel)) Handle w =
      render_loop env fuel Handle (iteration env entered) /\
    close_requested
      (exec (processInput Handle) (exec (glfwWindowShouldClose Handle) entered)) =
      escape_pressed entered || close_requested entered /\
    clear_color (iteration env entered) = mkColor 0.5 0.2 0.3 1.0 /\
    Z.land (Z.lor GL_COLOR_BUFFER_BIT GL_DEPTH_BUFFER_BIT) GL_COLOR_BUFFER_BIT
      = GL_COLOR_BUFFER_BIT /\
    Z.land (Z.lor GL_COLOR_BUFFER_BIT GL_DEPTH_BUFFER_BIT) GL_DEPTH_BUFFER_BIT
      = GL_DEPTH_BUFFER_BIT.
Proof.
  intros Hopen entered.
  assert (Hrun : render_loop env (S (n + fuel)) Handle w =
                 render_loop env fuel Handle (iteration env entered)).
  { replace (S (n + fuel)) with (n + S fuel)%nat by lia.
    rewrite render_loop_iterations by (intros i Hi; apply Hopen; lia).
    fold entered. rewrite render_loop_open by (apply Hopen; lia).
    reflexivity. }
  assert (Hit : iteration env entered =
                exec (frame env Handle) (log_call GlfwWindowShouldClose entered))
    by reflexivity.
  destruct (frame_log env (log_call GlfwWindowShouldClose entered))
    as (fired & Hlog & Hfired).
  destruct (render_loop_log env fuel (iteration env entered))
    as (rest & Hrest & Frest).
  assert (Hbody : log (iteration env entered) =
      log entered ++
      [GlfwWindowShouldClose; GlfwGetKey GLFW_KEY_ESCAPE] ++
      (if escape_pressed entered then [GlfwSetWindowShouldClose true] else []) ++
      [GlClearColor 0.5 0.2 0.3 1.0;
       GlClear (Z.lor GL_COLOR_BUFFER_BIT GL_DEPTH_BUFFER_BIT);
       GlfwSwapBuffers;
       GlfwPollEvents] ++
      fired).
  { rewrite Hit, Hlog, check_escape. unfold frame_calls. cbn [log log_call app].
    repeat rewrite <- app_assoc. reflexivity. }
  exists fired, rest. repeat split.
  - unfold exec at 1. rewrite Hrun.
    fold (exec (render_loop env fuel Handle) (iteration env entered)).
    rewrite Hrest, Hbody. repeat rewrite <- app_assoc. reflexivity.
  - exact Hfired.
  - exact Frest.
  - exact Hbody.
  - exact Hrun.
  - change (exec (glfwWindowShouldClose Handle) entered)
      with (log_call GlfwWindowShouldClose entered).
    rewrite processInput_exec, check_escape, check_window.
    unfold close_requested, escape_pressed; cbn [window].
    destruct (window entered) as [d|]; [|reflexivity].
    now destruct (keys d GLFW_KEY_ESCAPE =? GLFW_PRESS).
  - rewrite Hit, frame_exec.
    match goal with
    | |- clear_color (exec (dispatch_all ?es) ?v) = _ =>
        destruct (dispatch_all_frame es v) as (_ & H & _)
    end.
    exact H.
Qed.

Lemma frame_steps_witness :
  let env := mkEnv true (Some (800, 600)) true
                   (fun n => match n with
                             | 0%nat => [FramebufferResized 640 480]
                             | 1%nat => [KeyChanged GLFW_KEY_ESCAPE GLFW_PRESS]
                             | _ => []
                             end) in
  let w := exec (bootstrap env) startup in
  (forall i, (i <= 2)%nat -> closing (Nat.iter i (iteration env) w) = false) /\
  exists fired rest,
    log (exec (render_loop env 5 Handle) w) =
      log (Nat.iter 2 (iteration env) w) ++
      [GlfwWindowShouldClose; GlfwGetKey GLFW_KEY_ESCAPE] ++
      [GlfwSetWindowShouldClose true] ++
      [GlClearColor 0.5 0.2 0.3 1.0;
       GlClear (Z.lor GL_COLOR_BUFFER_BIT GL_DEPTH_BUFFER_BIT);
       GlfwSwapBuffers;
       GlfwPollEvents] ++
      fired ++ rest.
Proof.
  intros env w.
  assert (Hopen : forall i, (i <= 2)%nat ->
                            closing (Nat.iter i (iteration env) w) = false)
    by (intros [|[|[|i]]] Hi; [reflexivity | reflexivity | reflexivity | lia]).
  split; [exact Hopen|].
  destruct (frame_steps env 2 2 w Hopen) as (fired & rest & H & _).
  exists fired, rest. exact H.
Defined.

(** C6. In an iteration entered with Escape pressed, the input check sets
    the close flag; the body of that iteration runs to its end; and the next
    evaluation of the loop condition ends the loop, so exactly one more body
    (one more buffer swap) is executed, whatever the events of the poll and
    however much fuel is left. *)
Theorem escape_ends_loop (env : Env) (fuel : nat) (w : World) :
  closing w = false ->
  escape_pressed w = true ->
  let entered := exec (glfwWindowShouldClose Handle) w in
  close_requested (exec (processInput Handle) entered) = true /\
  render_loop env (S (S fuel)) Handle w =
    (Some tt,
     exec (glfwWindowShouldClose Handle) (exec (frame env Handle) entered)) /\
  count is_swap (log (exec (render_loop env (S (S fuel)) Handle) w)) =
    S (count is_swap (log w)).
Proof.
  intros Hc Hp entered. subst entered.
  change (exec (glfwWindowShouldClose Handle) w)
    with (log_call GlfwWindowShouldClose w).
  assert (Hd : exists d, window w = Some d).
  { unfold escape_pressed in Hp. destruct (window w) as [d|]; [now exists d|discriminate]. }
  destruct Hd as [d Hd].
  assert (Hloop : render_loop env (S (S fuel)) Handle w =
    (Some tt,
     exec (glfwWindowShouldClose Handle)
          (exec (frame env Handle) (log_call GlfwWindowShouldClose w)))).
  { rewrite render_loop_open by exact Hc.
    rewrite render_loop_closed; [reflexivity|].
    rewrite (closing_window _ (window_after_frame env w d))
      by (now apply iteration_window).
    unfold window_after_frame. rewrite Hp. now apply close_flag_sticks. }
  split; [|split; [exact Hloop|]].
  - rewrite processInput_exec, check_escape, check_window, Hp.
    unfold close_requested; cbn [window]. now rewrite Hd.
  - unfold exec at 1. rewrite Hloop. cbn [snd].
    destruct (frame_log env (log_call GlfwWindowShouldClose w)) as (fired & H & F).
    change (log (exec (glfwWindowShouldClose Handle) ?v))
      with (log v ++ [GlfwWindowShouldClose]).
    rewrite H, check_escape, Hp. cbn [log log_call].
    rewrite !count_app.
    rewrite (count_none is_swap fired).
    + cbn. lia.
    + eapply Forall_impl; [|exact F]. intros c Hv. now destruct c.
Qed.

Lemma escape_ends_loop_witness :
  let env := mkEnv true (Some (800, 600)) true (fun _ => [KeyChanged 256 0]) in
  let w := mkWorld true
             (Some (set_key GLFW_KEY_ESCAPE GLFW_PRESS (new_window (800, 600))))
             (mkRect 0 0 800 600) (mkColor 0 0 0 0) 0 [] in
  (closing w = false /\ escape_pressed w = true) /\
  eval (render_loop env 2 Handle) w = Some tt /\
  count is_swap (log (exec (render_loop env 2 Handle) w)) = 1%nat.
Proof.
  intros env w. split; [split; reflexivity|].
  destruct (escape_ends_loop env 0 w eq_refl eq_refl) as (_ & H2 & H3).
  split; [unfold eval; now rewrite H2 | exact H3].
Defined.

(** C7. When window creation yields the null handle, the process prints
    "Window Creation Failed" (one line, nothing else), returns -1, and makes
    none of the calls of the render loop: no iteration is executed. *)
Theorem creation_failure_exit (env : Env) (fuel : nat) :
  failure env = Some CreationFailure ->
  let calls := log (exec (main env fuel) startup) in
  eval (main env fuel) startup = Some (-1) /\
  output calls = ("Window Creation Failed" ++ newline)%string /\
  count is_loop_call calls = 0%nat /\
  Forall (fun c => is_loop_call c = false) calls.
Proof.
  intros Hf calls. subst calls. unfold eval, exec.
  rewrite (main_early_return env fuel _ _ (bootstrap_creation_failure env Hf)).
  cbn [fst snd log]. repeat split. repeat constructor.
Qed.

Lemma creation_failure_exit_witness :
  let refused := mkEnv true None true (fun _ => [CloseRequested]) in
  failure refused = Some CreationFailure /\
  eval (main refused 9) startup = Some (-1).
Proof.
  intro refused. split; [reflexivity|].
  exact (proj1 (creation_failure_exit refused 9 eq_refl)).
Defined.

(** C8. When loading the GL function table fails, the process prints
    "Failed to initialized GLAD" (one line, nothing else), returns -1, and
    makes none of the calls of the render loop: no iteration is executed. *)
Theorem load_failure_exit (env : Env) (fuel : nat) :
  failure env = Some LoadFailure ->
  let calls := log (exec (main env fuel) startup) in
  eval (main env fuel) startup = Some (-1) /\
  output calls = ("Failed to initialized GLAD" ++ newline)%string /\
  count is_loop_call calls = 0%nat /\
  Forall (fun c => is_loop_call c = false) calls.
Proof.
  intros Hf calls. subst calls. unfold eval, exec.
  destruct (bootstrap_load_failure env Hf) as (size & _ & E).
  rewrite (main_early_return env fuel _ _ E).
  cbn [fst snd log]. repeat split. repeat constructor.
Qed.

Lemma load_failure_exit_witness :
  let unloaded := mkEnv true (Some (800, 600)) false (fun _ => [CloseRequested]) in
  failure unloaded = Some LoadFailure /\
  eval (main unloaded 9) startup = Some (-1).
Proof.
  intro unloaded. split; [reflexivity|].
  exact (proj1 (load_failure_exit unloaded 9 eq_refl)).
Defined.

(** C9. In a run whose start-up succeeds and in which some poll delivers a
    close request from the window system or leaves Escape pressed, [main]
    returns, with exit code 0 and with exactly one library teardown; and no run
    whose start-up succeeds returns anything else. *)
Theorem normal_termination (env : Env) (k : nat) :
  failure env = None ->
  asks_to_close (env_events env k) = true ->
  (forall fuel, (k + 3 <= fuel)%nat ->
     eval (main env fuel) startup = Some 0 /\
     count is_terminate (log (exec (main env fuel) startup)) = 1%nat) /\
  (forall fuel code,
     eval (main env fuel) startup = Some code ->
     code = 0 /\
     count is_terminate (log (exec (main env fuel) startup)) = 1%nat).
Proof.
  intros Hf Hk. destruct (bootstrap_success env Hf) as (size & _ & E). split.
  - intros fuel Hfuel. apply (main_after_loop env fuel size E).
    now apply (render_loop_finishes env k (loop_entry size) _ fuel eq_refl).
  - intros fuel code Hcode.
    destruct (eval (render_loop env fuel Handle) (loop_entry size)) as [[]|] eqn:Hl.
    + destruct (main_after_loop env fuel size E Hl) as [H0 H1].
      split; [congruence | exact H1].
    + unfold eval in Hcode, Hl. rewrite (main_enters_loop env fuel _ E) in Hcode.
      unfold eval in Hcode. rewrite Hl in Hcode. discriminate.
Qed.

Lemma normal_termination_witness :
  let escape := mkEnv true (Some (800, 600)) true
                  (fun n => match n with
                            | 2%nat => [KeyChanged GLFW_KEY_ESCAPE GLFW_PRESS]
                            | _ => []
                            end) in
  let closed := mkEnv true (Some (800, 600)) true
                  (fun n => match n with
                            | 1%nat => [CloseRequested]
                            | _ => []
                            end) in
  (failure escape = None /\ asks_to_close (env_events escape 2) = true /\
   eval (main escape 5) startup = Some 0) /\
  (failure closed = None /\ asks_to_close (env_events closed 1) = true /\
   eval (main closed 4) startup = Some 0).
Proof.
  intros escape closed. split; (split; [reflexivity|split; [reflexivity|]]).
  - exact (proj1 (proj1 (normal_termination escape 2 eq_refl eq_refl) 5%nat ltac:(lia))).
  - exact (proj1 (proj1 (normal_termination closed 1 eq_refl eq_refl) 4%nat ltac:(lia))).
Defined.

(** C10. The input check changes nothing but the close flag of the window
    (and the log of calls): the flag is set when Escape is pressed, and with
    Escape not pressed the window is left exactly as it was. Once the flag is
    set, every operation of the render loop, the whole body, any number of
    iterations and the loop itself leave it set. *)
Theorem close_flag_only_rises (env : Env) (w : World) :
  (exists calls,
      exec (processInput Handle) w =
      mkWorld (glfw_ready w)
              (if escape_pressed w
               then option_map (set_should_close true) (window w)
               else window w)
              (viewport w) (clear_color w) (polls w) (log w ++ calls)) /\
  (escape_pressed w = false -> window (exec (processInput Handle) w) = window w) /\
  (close_requested w = true ->
     close_requested (exec (glfwWindowShouldClose Handle) w) = true /\
     close_requested (exec (processInput Handle) w) = true /\
     close_requested (exec (glClearColor 0.5 0.2 0.3 1.0) w) = true /\
     close_requested
       (exec (glClear (Z.lor GL_COLOR_BUFFER_BIT GL_DEPTH_BUFFER_BIT)) w) = true /\
     close_requested (exec (glfwSwapBuffers Handle) w) = true /\
     close_requested (exec (glfwPollEvents env) w) = true /\
     close_requested (exec (frame env Handle) w) = true /\
     (forall n, close_requested (Nat.iter n (iteration env) w) = true) /\
     (forall fuel, close_requested (exec (render_loop env fuel Handle) w) = true)).
Proof.
  assert (Hframe : forall v, close_requested v = true ->
                             close_requested (exec (frame env Handle) v) = true).
  { intros v Hv. unfold close_requested in *. rewrite frame_window.
    destruct (window v) as [d|]; [|discriminate]. cbn.
    unfold window_after_frame. apply close_flag_sticks.
    now destruct (escape_pressed v). }
  split; [|split].
  - eexists. apply processInput_exec.
  - intro Hp. now rewrite processInput_exec, Hp.
  - intro Hw. repeat split; try exact Hw.
    + rewrite processInput_exec. unfold close_requested in *; cbn.
      destruct (window w) as [d|]; [|discriminate].
      now destruct (escape_pressed _).
    + unfold close_requested in *. unfold exec, glfwPollEvents.
      fold (exec (dispatch_all (env_events env (polls w)))
                 (next_poll (log_call GlfwPollEvents w))).
      rewrite dispatch_all_window. cbn.
      destruct (window w) as [d|]; [|discriminate]. cbn.
      now apply (close_flag_sticks (env_events env (polls w))).
    + now apply Hframe.
    + intro n. induction n as [|n IH]; [exact Hw|].
      rewrite Nat.iter_succ. unfold iteration at 1. now apply Hframe.
    + intro fuel. destruct fuel as [|fuel]; [exact Hw|].
      unfold exec. rewrite render_loop_closed; [exact Hw|].
      unfold close_requested in Hw. destruct (window w) as [d|] eqn:Hd; [|discriminate].
      now rewrite (closing_window w d).
Qed.

Lemma close_flag_only_rises_witness :
  let env := mkEnv true (Some (800, 600)) true
               (fun _ => [KeyChanged GLFW_KEY_ESCAPE GLFW_RELEASE;
                          FramebufferResized 320 200]) in
  let w := mkWorld true (Some (set_should_close true (new_window (800, 600))))
             (mkRect 0 0 800 600) (mkColor 0 0 0 0) 0 [] in
  (escape_pressed w = false /\ close_requested w = true) /\
  window (exec (processInput Handle) w) = window w /\
  close_requested (Nat.iter 3 (iteration env) w) = true.
Proof.
  intros env w. split; [split; reflexivity|].
  destruct (close_flag_only_rises env w) as (_ & H2 & H3).
  split; [exact (H2 eq_refl)|].
  destruct (H3 eq_refl) as (_ & _ & _ & _ & _ & _ & _ & H & _).
  exact (H 3%nat).
Defined.

(** ** Further properties of the program *)

(** *** One iteration, exactly *)

Lemma close_flag_after_all (es : list Event) (d : Window) :
  should_close (window_after_all es d) = should_close d || existsb is_close es.
Proof.
  unfold window_after_all. revert d.
  induction es as [|e es IH]; intro d; cbn; [now rewrite orb_false_r|].
  rewrite IH. destruct e; cbn; try reflexivity.
  now rewrite orb_true_r.
Qed.

Lemma closing_false_window (w : World) :
  closing w = false -> exists d, window w = Some d /\ should_close d = false.
Proof.
  unfold closing, eval, glfwWindowShouldClose; cbn.
  destruct (window w) as [d|]; [|discriminate]. intro H. now exists d.
Qed.

Lemma iteration_unfold (env : Env) (w : World) :
  iteration env w = exec (frame env Handle) (log_call GlfwWindowShouldClose w).
Proof. reflexivity. Qed.

Lemma iteration_close_flag (env : Env) (w : World) :
  closing w = false ->
  close_requested (iteration env w) =
  escape_pressed w || existsb is_close (env_events env (polls w)).
Proof.
  intro Hc. destruct (closing_false_window w Hc) as (d & Hd & Hs).
  rewrite iteration_unfold. unfold close_requested.
  rewrite (iteration_window env w d Hd). unfold window_after_frame.
  rewrite close_flag_after_all.
  destruct (escape_pressed w); cbn; [reflexivity|now rewrite Hs].
Qed.

Lemma iteration_escape (env : Env) (w : World) :
  closing w = false ->
  escape_pressed (iteration env w) =
  escape_after (env_events env (polls w)) (escape_pressed w).
Proof.
  intro Hc. destruct (closing_false_window w Hc) as (d & Hd & Hs).
  rewrite iteration_unfold. unfold escape_pressed at 1.
  rewrite (iteration_window env w d Hd). unfold window_after_frame.
  rewrite escape_state_after. f_equal.
  destruct (escape_pressed w) eqn:E; unfold escape_pressed in E; rewrite Hd in E;
    exact E.
Qed.

Lemma iteration_closing (env : Env) (w : World) :
  closing w = false ->
  closing (iteration env w) = close_requested (iteration env w).
Proof.
  intro Hc. destruct (closing_false_window w Hc) as (d & Hd & Hs).
  unfold close_requested. rewrite iteration_unfold.
  rewrite (closing_window _ (window_after_frame env w d))
    by now apply iteration_window.
  now rewrite (iteration_window env w d Hd).
Qed.

Lemma iteration_frames (env : Env) (w : World) :
  frames (iteration env w) = S (frames w).
Proof.
  unfold frames. rewrite iteration_unfold.
  destruct (frame_log env (log_call GlfwWindowShouldClose w)) as (fired & H & F).
  rewrite H. cbn [log log_call]. rewrite !count_app, (count_none is_swap fired).
  - destruct (escape_pressed _); cbn; lia.
  - eapply Forall_impl; [|exact F]. intros c Hv. now destruct c.
Qed.

Lemma iteration_polls_next (env : Env) (w : World) :
  polls (iteration env w) = S (polls w).
Proof. rewrite iteration_unfold. apply iteration_polls. Qed.

(** *** The loop, iteration by iteration *)

Lemma render_loop_step (env : Env) (fuel : nat) (w : World) :
  closing w = false ->
  render_loop env (S fuel) Handle w = render_loop env fuel Handle (iteration env w).
Proof. intro H. now rewrite render_loop_open. Qed.

Lemma render_loop_stop (env : Env) (fuel : nat) (w : World) :
  closing w = true ->
  eval (render_loop env (S fuel) Handle) w = Some tt /\
  frames (exec (render_loop env (S fuel) Handle) w) = frames w.
Proof.
  intro H. unfold eval, exec. rewrite render_loop_closed by exact H.
  split; [reflexivity|]. unfold frames. cbn [snd log log_call].
  rewrite count_app. cbn. lia.
Qed.

Lemma idle_parts (w : World) :
  idle w = true <-> closing w = false /\ escape_pressed w = false.
Proof.
  unfold idle. rewrite andb_true_iff, !negb_true_iff. reflexivity.
Qed.

Lemma asks_parts (es : list Event) :
  asks_to_close es = false <->
  existsb is_close es = false /\ escape_after es false = false.
Proof. unfold asks_to_close. apply orb_false_iff. Qed.

(** An idle iteration whose poll does not ask to close leaves the loop idle. *)
Lemma idle_step (env : Env) (w : World) :
  idle w = true ->
  asks_to_close (env_events env (polls w)) = false ->
  idle (iteration env w) = true.
Proof.
  intros Hi Ha. apply idle_parts in Hi. destruct Hi as [Hc Hp].
  apply asks_parts in Ha. destruct Ha as [Hx He].
  apply idle_parts. split.
  - now rewrite iteration_closing, iteration_close_flag, Hp, Hx.
  - now rewrite iteration_escape, Hp.
Qed.

(** From an idle loop whose [k]-th next poll is the first to ask for a close:
    the loop ends, after [k + 1] more frames when that poll carries a close
    request, and after [k + 2] when it only leaves Escape pressed. *)
Lemma loop_frames (env : Env) (k : nat) :
  forall (w : World) (fuel : nat),
    idle w = true ->
    (forall j, (j < k)%nat -> asks_to_close (env_events env (polls w + j)) = false) ->
    asks_to_close (env_events env (polls w + k)) = true ->
    (k + 3 <= fuel)%nat ->
    eval (render_loop env fuel Handle) w = Some tt /\
    frames (exec (render_loop env fuel Handle) w) =
      (frames w + k +
       if existsb is_close (env_events env (polls w + k)) then 1 else 2)%nat.
Proof.
  induction k as [|k IH]; intros w fuel Hi Hquiet Hask Hfuel.
  - replace (polls w + 0)%nat with (polls w) in * by lia.
    destruct fuel as [|[|[|fuel]]]; try lia.
    pose proof (proj1 (idle_parts w) Hi) as [Hc Hp].
    unfold eval, exec. rewrite render_loop_step by exact Hc.
    fold (eval (render_loop env (S (S fuel)) Handle) (iteration env w)).
    fold (exec (render_loop env (S (S fuel)) Handle) (iteration env w)).
    pose proof (iteration_closing env w Hc) as Hcl.
    rewrite iteration_close_flag, Hp in Hcl by exact Hc. cbn [orb] in Hcl.
    destruct (existsb is_close (env_events env (polls w))) eqn:Hx.
    + destruct (render_loop_stop env (S fuel) (iteration env w) Hcl) as [H1 H2].
      rewrite H1, H2, iteration_frames. split; [reflexivity|lia].
    + assert (He : escape_pressed (iteration env w) = true).
      { rewrite iteration_escape, Hp by exact Hc.
        unfold asks_to_close in Hask. now rewrite Hx in Hask. }
      unfold eval, exec. rewrite render_loop_step by exact Hcl.
      assert (Hcl2 : closing (iteration env (iteration env w)) = true).
      { now rewrite iteration_closing, iteration_close_flag, He. }
      destruct (render_loop_stop env fuel _ Hcl2) as [H1 H2].
      unfold eval, exec in H1, H2. rewrite H1, H2, !iteration_frames.
      split; [reflexivity|lia].
  - destruct fuel as [|fuel]; [lia|].
    pose proof (proj1 (idle_parts w) Hi) as [Hc Hp].
    assert (H0 : asks_to_close (env_events env (polls w)) = false).
    { rewrite <- (Nat.add_0_r (polls w)). apply Hquiet. lia. }
    unfold eval, exec. rewrite render_loop_step by exact Hc.
    destruct (IH (iteration env w) fuel) as [H1 H2].
    + now apply idle_step.
    + intros j Hj. rewrite iteration_polls_next.
      replace (S (polls w) + j)%nat with (polls w + S j)%nat by lia.
      apply Hquiet. lia.
    + rewrite iteration_polls_next.
      now replace (S (polls w) + k)%nat with (polls w + S k)%nat by lia.
    + lia.
    + unfold eval, exec in H1, H2. rewrite H1, H2.
      rewrite iteration_frames, iteration_polls_next.
      replace (S (polls w) + k)%nat with (polls w + S k)%nat by lia.
      split; [reflexivity|lia].
Qed.

(** A loop that returns was asked to: from an idle loop, some poll within
    the fuel asked for a close. *)
Lemma loop_returns_asks (env : Env) (fuel : nat) :
  forall w : World,
    idle w = true ->
    eval (render_loop env fuel Handle) w = Some tt ->
    exists k, (k < fuel)%nat /\
              asks_to_close (env_events env (polls w + k)) = true.
Proof.
  induction fuel as [|fuel IH]; intros w Hi Hr; [discriminate|].
  pose proof (proj1 (idle_parts w) Hi) as [Hc Hp].
  destruct (asks_to_close (env_events env (polls w))) eqn:Ha.
  - exists 0%nat. rewrite Nat.add_0_r. split; [lia|exact Ha].
  - unfold eval in Hr. rewrite render_loop_step in Hr by exact Hc.
    destruct (IH (iteration env w) (idle_step env w Hi Ha) Hr) as (k & Hk & Hk').
    exists (S k). split; [lia|].
    rewrite iteration_polls_next in Hk'.
    now replace (polls w + S k)%nat with (S (polls w) + k)%nat by lia.
Qed.

(** With no poll ever asking for a close, the loop uses up any fuel, one
    frame per unit. *)
Lemma loop_runs_on (env : Env) (fuel : nat) :
  forall w : World,
    idle w = true ->
    (forall j, asks_to_close (env_events env (polls w + j)) = false) ->
    eval (render_loop env fuel Handle) w = None /\
    frames (exec (render_loop env fuel Handle) w) = (frames w + fuel)%nat.
Proof.
  induction fuel as [|fuel IH]; intros w Hi Hq.
  - split; [reflexivity|]. cbn. lia.
  - pose proof (proj1 (idle_parts w) Hi) as [Hc Hp].
    assert (H0 : asks_to_close (env_events env (polls w)) = false)
      by (rewrite <- (Nat.add_0_r (polls w)); apply Hq).
    unfold eval, exec. rewrite render_loop_step by exact Hc.
    destruct (IH (iteration env w) (idle_step env w Hi H0)) as [H1 H2].
    + intro j. rewrite iteration_polls_next.
      replace (S (polls w) + j)%nat with (polls w + S j)%nat by lia. apply Hq.
    + unfold eval, exec in H1, H2. rewrite H1, H2, iteration_frames.
      split; [reflexivity|lia].
Qed.

Lemma harmless_keeps_escape (es : list Event) (held : bool) :
  forallb harmless es = true -> escape_after es held = held.
Proof.
  unfold escape_after. revert held.
  induction es as [|e es IH]; intros held H; [reflexivity|].
  cbn in H. apply andb_true_iff in H. destruct H as [He Hes].
  cbn [fold_left]. rewrite (IH _ Hes).
  destruct e as [width height| |key action]; try reflexivity.
  cbn in He. apply negb_true_iff in He. now rewrite He.
Qed.

Lemma harmless_never_asks (es : list Event) :
  forallb harmless es = true -> asks_to_close es = false.
Proof.
  intro H. apply asks_parts. split.
  - induction es as [|e es IH]; [reflexivity|].
    cbn in H. apply andb_true_iff in H. destruct H as [He Hes].
    cbn. rewrite (IH Hes). now destruct e.
  - now apply harmless_keeps_escape.
Qed.

(** *** The loop inside [main] *)

Lemma frames_after_terminate (w : World) :
  frames (exec glfwTerminate w) = frames w.
Proof.
  unfold frames. change (log (exec glfwTerminate w)) with (log w ++ [GlfwTerminate]).
  rewrite count_app. cbn. lia.
Qed.

Lemma main_loop_returns (env : Env) (fuel : nat) (size : Z * Z) :
  bootstrap env startup = (inr Handle, loop_entry size) ->
  eval (render_loop env fuel Handle) (loop_entry size) = Some tt ->
  main env fuel startup =
  (Some 0, exec glfwTerminate (exec (render_loop env fuel Handle) (loop_entry size))).
Proof. intros E H. rewrite (main_enters_loop env fuel _ E). now rewrite H. Qed.

Lemma main_loop_runs (env : Env) (fuel : nat) (size : Z * Z) :
  bootstrap env startup = (inr Handle, loop_entry size) ->
  eval (render_loop env fuel Handle) (loop_entry size) = None ->
  main env fuel startup =
  (None, exec (render_loop env fuel Handle) (loop_entry size)).
Proof. intros E H. rewrite (main_enters_loop env fuel _ E). now rewrite H. Qed.

(** *** The shape of the log *)

(** A log that begins with a prefix free of [p]-calls: any [p]-call in it
    lies behind the prefix. *)
Lemma behind_prefix (p : Call -> bool) (prefix rest before after : list Call)
      (c : Call) :
  Forall (fun x => p x = false) prefix ->
  p c = true ->
  prefix ++ rest = before ++ c :: after ->
  exists mid, before = prefix ++ mid.
Proof.
  intros Hp Hc. revert before.
  induction Hp as [|x prefix Hx _ IH]; intros before E.
  - now exists before.
  - destruct before as [|b before]; cbn in E; inversion E; subst.
    + congruence.
    + destruct (IH before H1) as [mid Hmid]. exists mid. now rewrite Hmid.
Qed.

Lemma not_in_log (p : Call -> bool) (l before after : list Call) (c : Call) :
  Forall (fun x => p x = false) l ->
  p c = true ->
  l = before ++ c :: after ->
  False.
Proof.
  intros Hl Hc E. subst l. apply Forall_app in Hl. destruct Hl as [_ Hl].
  inversion Hl; subst. congruence.
Qed.

Lemma output_app (l1 l2 : list Call) :
  output (l1 ++ l2) = (output l1 ++ output l2)%string.
Proof.
  induction l1 as [|c l1 IH]; [reflexivity|].
  destruct c; cbn; try exact IH.
  rewrite IH. clear. induction text as [|a text IHt]; cbn; [reflexivity|].
  now rewrite IHt.
Qed.

Lemma output_none (l : list Call) :
  Forall (fun c => is_cout c = false) l -> output l = EmptyString.
Proof.
  induction 1 as [|c l Hc _ IH]; [reflexivity|].
  destruct c; try discriminate; exact IH.
Qed.

Lemma loop_calls_weaken (p : Call -> bool) (l : list Call) :
  (forall c, loop_or_viewport c = true -> p c = false) ->
  Forall (fun c => loop_or_viewport c = true) l ->
  Forall (fun c => p c = false) l.
Proof. intros H F. eapply Forall_impl; [|exact F]. exact H. Qed.

(** The log of a run whose start-up succeeds: the start-up calls, then calls
    of the loop and of the callback, then the teardown if the run returned. *)
Lemma main_log_success (env : Env) (fuel : nat) :
  failure env = None ->
  exists size added,
    Forall (fun c => loop_or_viewport c = true) added /\
    (eval (main env fuel) startup = None /\
     log (exec (main env fuel) startup) = log (loop_entry size) ++ added
     \/
     eval (main env fuel) startup = Some 0 /\
     log (exec (main env fuel) startup) =
       (log (loop_entry size) ++ added) ++ [GlfwTerminate]).
Proof.
  intro Hf. destruct (bootstrap_success env Hf) as (size & _ & E).
  destruct (render_loop_log env fuel (loop_entry size)) as (added & H & F).
  exists size, added. split; [exact F|].
  destruct (eval (render_loop env fuel Handle) (loop_entry size)) as [[]|] eqn:Hl.
  - right. unfold eval, exec. rewrite (main_loop_returns env fuel size E Hl).
    split; [reflexivity|]. cbn [snd].
    change (log (exec glfwTerminate ?v)) with (log v ++ [GlfwTerminate]).
    now rewrite H.
  - left. unfold eval, exec. rewrite (main_loop_runs env fuel size E Hl).
    split; [reflexivity|exact H].
Qed.

(** Every log is a teardown-free body, followed by the teardown in the runs
    that tear down; those runs have returned. *)
Lemma main_log_teardown (env : Env) (fuel : nat) :
  exists body,
    Forall (fun c => is_terminate c = false) body /\
    (log (exec (main env fuel) startup) = body
     \/
     log (exec (main env fuel) startup) = body ++ [GlfwTerminate] /\
     exists code, eval (main env fuel) startup = Some code).
Proof.
  destruct (failure env) as [[|]|] eqn:Hf.
  - unfold eval, exec.
    rewrite (main_early_return env fuel _ _ (bootstrap_creation_failure env Hf)).
    exists (creation_calls ++ [Cout ("Window Creation Failed" ++ newline)%string]).
    split; [repeat constructor|]. right. split; [reflexivity|now exists (-1)].
  - destruct (bootstrap_load_failure env Hf) as (size & _ & E).
    unfold eval, exec. rewrite (main_early_return env fuel _ _ E).
    eexists. split; [|left; reflexivity]. repeat constructor.
  - destruct (main_log_success env fuel Hf) as (size & added & F & [[_ H]|[H0 H]]).
    + exists (log (loop_entry size) ++ added). split; [|now left].
      apply Forall_app. split; [repeat constructor|].
      apply (loop_calls_weaken is_terminate); [|exact F]. now intros [].
    + exists (log (loop_entry size) ++ added). split.
      * apply Forall_app. split; [repeat constructor|].
        apply (loop_calls_weaken is_terminate); [|exact F]. now intros [].
      * right. split; [exact H|now exists 0].
Qed.

(** *** The viewport across iterations *)

Lemma dispatch_fills (e : Event) (w : World) :
  registered w = true ->
  resize_ok e = true ->
  fills_framebuffer w \/ is_resize e = true ->
  fills_framebuffer (exec (dispatch e) w).
Proof.
  intros Hr Hok Hw.
  destruct e as [width height| |key action].
  - cbn in Hok. apply andb_true_iff in Hok. destruct Hok as [H1 H2].
    apply Z.leb_le in H1, H2.
    destruct (dispatch_resize w width height Hr H1 H2) as (Hv & d & Hd & Hs).
    exists d. split; [exact Hd|]. rewrite Hv, Hs. reflexivity.
  - destruct Hw as [(d & Hd & Hv)|Hw]; [|discriminate].
    exists (set_should_close true d). unfold exec; cbn. rewrite Hd. now split.
  - destruct Hw as [(d & Hd & Hv)|Hw]; [|discriminate].
    exists (set_key key action d). unfold exec; cbn. rewrite Hd. now split.
Qed.

Lemma dispatch_registered (e : Event) (w : World) :
  registered w = true -> registered (exec (dispatch e) w) = true.
Proof. intro H. exact (registered_kept [e] w H). Qed.

Lemma dispatch_all_fills (es : list Event) :
  forall w : World,
    registered w = true ->
    forallb resize_ok es = true ->
    fills_framebuffer w \/ existsb is_resize es = true ->
    fills_framebuffer (exec (dispatch_all es) w).
Proof.
  induction es as [|e es IH]; intros w Hr Hok Hw.
  - destruct Hw as [Hw|Hw]; [exact Hw|discriminate].
  - cbn in Hok. apply andb_true_iff in Hok. destruct Hok as [He Hes].
    cbn [dispatch_all]. rewrite exec_bind.
    apply IH; [now apply dispatch_registered | exact Hes |].
    cbn in Hw. destruct (is_resize e) eqn:Hres.
    + left. apply dispatch_fills; [assumption..|now right].
    + destruct Hw as [Hw|Hw]; [|now right].
      left. apply dispatch_fills; [assumption..|now left].
Qed.

(** One iteration keeps the viewport on the framebuffer, and puts it there
    when its poll delivers a resize. *)
Lemma iteration_fills (env : Env) (w : World) :
  registered w = true ->
  forallb resize_ok (env_events env (polls w)) = true ->
  fills_framebuffer w \/ existsb is_resize (env_events env (polls w)) = true ->
  fills_framebuffer (iteration env w) /\ registered (iteration env w) = true.
Proof.
  intros Hr Hok Hw. rewrite iteration_unfold, frame_exec.
  cbn [polls log_call].
  assert (Hd : exists d, window w = Some d).
  { unfold registered in Hr. destruct (window w) as [d|]; [now exists d|discriminate]. }
  destruct Hd as [d Hd].
  split.
  - apply dispatch_all_fills; [| exact Hok |].
    + unfold registered in *; cbn. rewrite Hd in *.
      now destruct (escape_pressed _).
    + destruct Hw as [(d' & Hd' & Hv)|Hw]; [left|now right].
      rewrite Hd in Hd'. inversion Hd'; subst d'.
      exists (if escape_pressed (log_call GlfwWindowShouldClose w)
              then set_should_close true d else d).
      cbn. rewrite Hd. split; now destruct (escape_pressed _).
  - apply registered_kept. unfold registered in *; cbn. rewrite Hd in *.
    now destruct (escape_pressed _).
Qed.

Lemma iter_polls (env : Env) (w : World) (n : nat) :
  polls (Nat.iter n (iteration env) w) = (polls w + n)%nat.
Proof.
  induction n as [|n IH]; [cbn; lia|].
  rewrite Nat.iter_succ, iteration_polls_next, IH. lia.
Qed.

(** ** Further theorems *)

(** X1. An iteration entered with the window not closing ends with the close
    flag set exactly when Escape was held at its input check or its poll
    delivered a close request. What the poll reports about Escape only
    becomes the key state the next input check reads, so a press that is
    released again within the same poll leaves no trace. Each iteration
    presents one frame and consumes one poll. *)
Theorem iteration_outcome (env : Env) (w : World) :
  closing w = false ->
  close_requested (iteration env w) =
    escape_pressed w || existsb is_close (env_events env (polls w)) /\
  escape_pressed (iteration env w) =
    escape_after (env_events env (polls w)) (escape_pressed w) /\
  frames (iteration env w) = S (frames w) /\
  polls (iteration env w) = S (polls w).
Proof.
  intro Hc. repeat split.
  - now apply iteration_close_flag.
  - now apply iteration_escape.
  - apply iteration_frames.
  - apply iteration_polls_next.
Qed.

Lemma iteration_outcome_witness :
  let tap := mkEnv true (Some (800, 600)) true
               (fun _ => [KeyChanged GLFW_KEY_ESCAPE GLFW_PRESS;
                          KeyChanged GLFW_KEY_ESCAPE GLFW_RELEASE]) in
  let w := exec (bootstrap tap) startup in
  closing w = false /\
  close_requested (iteration tap w) = false /\
  escape_pressed (iteration tap w) = false.
Proof.
  intros tap w. split; [reflexivity|].
  destruct (iteration_outcome tap w eq_refl) as (H1 & H2 & _).
  split; [exact H1 | exact H2].
Defined.

(** X2. In a run whose start-up succeeds, let poll [k] be the first that
    asks for a close. The run then returns 0 having presented exactly [k + 1]
    frames when that poll carried a close request of the window system, and
    exactly [k + 2] frames when it only left Escape pressed: the key is acted
    on one iteration later. *)
Theorem frames_until_exit (env : Env) (k fuel : nat) :
  failure env = None ->
  (forall j, (j < k)%nat -> asks_to_close (env_events env j) = false) ->
  asks_to_close (env_events env k) = true ->
  (k + 3 <= fuel)%nat ->
  eval (main env fuel) startup = Some 0 /\
  frames (exec (main env fuel) startup) =
    (k + if existsb is_close (env_events env k) then 1 else 2)%nat.
Proof.
  intros Hf Hquiet Hask Hfuel.
  destruct (bootstrap_success env Hf) as (size & _ & E).
  destruct (loop_frames env k (loop_entry size) fuel eq_refl Hquiet Hask Hfuel)
    as [H1 H2].
  unfold eval at 1, exec at 1. rewrite (main_loop_returns env fuel size E H1).
  cbn [fst snd]. split; [reflexivity|].
  rewrite frames_after_terminate, H2. reflexivity.
Qed.

Lemma frames_until_exit_witness :
  let escape := mkEnv true (Some (800, 600)) true
                  (fun n => match n with
                            | 2%nat => [KeyChanged GLFW_KEY_ESCAPE GLFW_PRESS]
                            | _ => []
                            end) in
  let closed := mkEnv true (Some (800, 600)) true
                  (fun n => match n with
                            | 2%nat => [CloseRequested]
                            | _ => []
                            end) in
  (failure escape = None /\ asks_to_close (env_events escape 2) = true /\
   frames (exec (main escape 5) startup) = 4%nat) /\
  (failure closed = None /\ asks_to_close (env_events closed 2) = true /\
   frames (exec (main closed 5) startup) = 3%nat).
Proof.
  intros escape closed.
  assert (Qe : forall j, (j < 2)%nat -> asks_to_close (env_events escape j) = false)
    by (intros [|[|j]] Hj; [reflexivity | reflexivity | lia]).
  assert (Qc : forall j, (j < 2)%nat -> asks_to_close (env_events closed j) = false)
    by (intros [|[|j]] Hj; [reflexivity | reflexivity | lia]).
  split; (split; [reflexivity|split; [reflexivity|]]).
  - exact (proj2 (frames_until_exit escape 2 5 eq_refl Qe eq_refl ltac:(lia))).
  - exact (proj2 (frames_until_exit closed 2 5 eq_refl Qc eq_refl ltac:(lia))).
Defined.

(** X3. A run whose start-up succeeds returns if and only if some poll asks
    for a close, by a close request of the window system or by leaving Escape
    pressed: the program never ends on its own. *)
Theorem returns_iff_asked (env : Env) :
  failure env = None ->
  (exists fuel code, eval (main env fuel) startup = Some code) <->
  (exists k, asks_to_close (env_events env k) = true).
Proof.
  intro Hf. destruct (bootstrap_success env Hf) as (size & _ & E). split.
  - intros (fuel & code & Hr).
    destruct (eval (render_loop env fuel Handle) (loop_entry size)) as [[]|] eqn:Hl.
    + destruct (loop_returns_asks env fuel (loop_entry size) eq_refl Hl)
        as (k & _ & Hk).
      now exists k.
    + unfold eval in Hr. rewrite (main_loop_runs env fuel size E Hl) in Hr.
      discriminate.
  - intros (k & Hk). exists (k + 3)%nat, 0.
    apply (main_after_loop env (k + 3) size E).
    apply (render_loop_finishes env k (loop_entry size) _ (k + 3) eq_refl Hk).
    lia.
Qed.

Lemma returns_iff_asked_witness :
  let closed := mkEnv true (Some (800, 600)) true
                  (fun n => match n with
                            | 1%nat => [CloseRequested]
                            | _ => []
                            end) in
  failure closed = None /\
  exists k, asks_to_close (env_events closed k) = true.
Proof.
  intro closed. split; [reflexivity|].
  apply (proj1 (returns_iff_asked closed eq_refl)).
  exists 4%nat, 0. reflexivity.
Defined.

(** X4. Resizes and key events of keys other than Escape never end the
    program: in a run whose start-up succeeds and whose polls deliver only
    such events, the loop is still running when any amount of fuel is spent,
    having presented one frame per unit of fuel. *)
Theorem harmless_events_never_exit (env : Env) (fuel : nat) :
  failure env = None ->
  (forall k, forallb harmless (env_events env k) = true) ->
  eval (main env fuel) startup = None /\
  frames (exec (main env fuel) startup) = fuel.
Proof.
  intros Hf Hh. destruct (bootstrap_success env Hf) as (size & _ & E).
  destruct (loop_runs_on env fuel (loop_entry size) eq_refl) as [H1 H2].
  - intro j. apply harmless_never_asks, Hh.
  - unfold eval, exec. rewrite (main_loop_runs env fuel size E H1).
    split; [reflexivity|exact H2].
Qed.

Lemma harmless_events_never_exit_witness :
  let busy := mkEnv true (Some (800, 600)) true
                (fun _ => [KeyChanged 65 GLFW_PRESS; FramebufferResized 640 480;
                           KeyChanged 65 GLFW_RELEASE]) in
  failure busy = None /\
  eval (main busy 6) startup = None /\
  frames (exec (main busy 6) startup) = 6%nat.
Proof.
  intro busy. split; [reflexivity|].
  apply (harmless_events_never_exit busy 6 eq_refl).
  intro k. reflexivity.
Defined.

(** X5. Every run, whatever its outcome and however long it lasts, begins
    with the same six calls: the library is initialised, an OpenGL 3.3 core,
    forward-compatible context is requested, and an 800x600 window titled
    "OpenGL Window" is asked for. *)
Theorem run_begins_with_creation (env : Env) (fuel : nat) :
  exists rest,
    log (exec (main env fuel) startup) =
    [GlfwInit;
     GlfwWindowHint GLFW_CONTEXT_VERSION_MAJOR 3;
     GlfwWindowHint GLFW_CONTEXT_VERSION_MINOR 3;
     GlfwWindowHint GLFW_OPENGL_PROFILE GLFW_OPENGL_CORE_PROFILE;
     GlfwWindowHint GLFW_OPENGL_FORWARD_COMPAT GL_TRUE;
     GlfwCreateWindow 800 600 "OpenGL Window"] ++ rest.
Proof.
  destruct (failure env) as [[|]|] eqn:Hf.
  - unfold exec.
    rewrite (main_early_return env fuel _ _ (bootstrap_creation_failure env Hf)).
    eexists. reflexivity.
  - destruct (bootstrap_load_failure env Hf) as (size & _ & E).
    unfold exec. rewrite (main_early_return env fuel _ _ E).
    eexists. reflexivity.
  - destruct (main_log_success env fuel Hf) as (size & added & _ & [[_ H]|[_ H]]);
      rewrite H; cbn [log loop_entry]; repeat rewrite <- app_assoc;
      eexists; reflexivity.
Qed.

(** X6. No OpenGL function is called unless the function table was loaded:
    wherever a run calls [glViewport], [glClearColor] or [glClear], start-up
    had succeeded, and the context was made current and the table loaded
    earlier in that run. *)
Theorem gl_only_after_load (env : Env) (fuel : nat)
        (before after : list Call) (c : Call) :
  log (exec (main env fuel) startup) = before ++ c :: after ->
  is_gl c = true ->
  failure env = None /\
  In GlfwMakeContextCurrent before /\ In GladLoadGLLoader before.
Proof.
  intros E Hc. destruct (failure env) as [[|]|] eqn:Hf.
  - exfalso. unfold exec in E.
    rewrite (main_early_return env fuel _ _ (bootstrap_creation_failure env Hf)) in E.
    apply (not_in_log is_gl _ before after c) in E; [exact E| |exact Hc].
    repeat constructor.
  - exfalso. destruct (bootstrap_load_failure env Hf) as (size & _ & E').
    unfold exec in E. rewrite (main_early_return env fuel _ _ E') in E.
    apply (not_in_log is_gl _ before after c) in E; [exact E| |exact Hc].
    repeat constructor.
  - split; [reflexivity|].
    assert (Hpre : exists rest,
               log (exec (main env fuel) startup) =
               (creation_calls ++ [GlfwMakeContextCurrent; GladLoadGLLoader]) ++ rest).
    { destruct (main_log_success env fuel Hf) as (size & added & _ & [[_ H]|[_ H]]);
        rewrite H; cbn [log loop_entry]; repeat rewrite <- app_assoc;
        eexists; reflexivity. }
    destruct Hpre as (rest & Hrest). rewrite Hrest in E.
    destruct (behind_prefix is_gl
                (creation_calls ++ [GlfwMakeContextCurrent; GladLoadGLLoader])
                rest before after c) as [mid Hmid];
      [repeat constructor | exact Hc | exact E |].
    rewrite Hmid. split; apply in_or_app; left; apply in_or_app; right; cbn; tauto.
Qed.

Lemma gl_only_after_load_witness :
  let env := mkEnv true (Some (800, 600)) true (fun _ => []) in
  (exists before after,
      log (exec (main env 1) startup) = before ++ GlClear 16640 :: after /\
      is_gl (GlClear 16640) = true) /\
  failure env = None.
Proof.
  intro env. split.
  - exists (creation_calls ++
            [GlfwMakeContextCurrent; GladLoadGLLoader; GlViewport 0 0 800 600;
             GlfwSetFramebufferSizeCallback Fn_framebuffer_size_callback;
             GlfwWindowShouldClose; GlfwGetKey GLFW_KEY_ESCAPE;
             GlClearColor 0.5 0.2 0.3 1.0]),
           [GlfwSwapBuffers; GlfwPollEvents].
    split; reflexivity.
  - refine (proj1 (gl_only_after_load env 1
      (creation_calls ++
            [GlfwMakeContextCurrent; GladLoadGLLoader; GlViewport 0 0 800 600;
             GlfwSetFramebufferSizeCallback Fn_framebuffer_size_callback;
             GlfwWindowShouldClose; GlfwGetKey GLFW_KEY_ESCAPE;
             GlClearColor 0.5 0.2 0.3 1.0])
      [GlfwSwapBuffers; GlfwPollEvents] (GlClear 16640) eq_refl eq_refl)).
Defined.

(** X7. The library teardown is the last thing a run does: wherever
    [glfwTerminate] occurs in the log, no call follows it and none of the
    calls before it is a teardown, and the run has returned. *)
Theorem nothing_after_teardown (env : Env) (fuel : nat)
        (before after : list Call) :
  log (exec (main env fuel) startup) = before ++ GlfwTerminate :: after ->
  after = [] /\
  count is_terminate before = 0%nat /\
  exists code, eval (main env fuel) startup = Some code.
Proof.
  intro E.
  destruct (main_log_teardown env fuel) as (body & F & [H|[H Hr]]).
  - exfalso. rewrite H in E.
    now apply (not_in_log is_terminate body before after GlfwTerminate).
  - rewrite H in E.
    destruct (behind_prefix is_terminate body [GlfwTerminate] before after
                GlfwTerminate F eq_refl E) as [mid Hmid].
    subst before. rewrite <- app_assoc in E. apply app_inv_head in E.
    destruct mid as [|m mid]; cbn in E.
    + inversion E; subst. rewrite app_nil_r.
      repeat split; [now apply count_none | exact Hr].
    + inversion E as [[Hm Hnil]]. now destruct mid.
Qed.

Lemma nothing_after_teardown_witness :
  let env := mkEnv true None true (fun _ => []) in
  (exists before,
      log (exec (main env 0) startup) = before ++ GlfwTerminate :: []) /\
  exists code, eval (main env 0) startup = Some code.
Proof.
  intro env. split.
  - exists (creation_calls ++ [Cout ("Window Creation Failed" ++ newline)%string]).
    reflexivity.
  - refine (proj2 (proj2 (nothing_after_teardown env 0
      (creation_calls ++ [Cout ("Window Creation Failed" ++ newline)%string])
      [] eq_refl))).
Defined.

(** X8. The whole standard output of a run is decided by its start-up: it is
    the one diagnostic line of the start-up failure, and it is empty when
    start-up succeeds, for as long as the run lasts. *)
Theorem output_by_outcome (env : Env) (fuel : nat) :
  output (log (exec (main env fuel) startup)) =
  match failure env with
  | Some f => (diagnostic f ++ newline)%string
  | None => EmptyString
  end.
Proof.
  destruct (failure env) as [[|]|] eqn:Hf.
  - unfold exec.
    now rewrite (main_early_return env fuel _ _ (bootstrap_creation_failure env Hf)).
  - destruct (bootstrap_load_failure env Hf) as (size & _ & E).
    unfold exec. now rewrite (main_early_return env fuel _ _ E).
  - apply output_none.
    destruct (main_log_success env fuel Hf) as (size & added & F & [[_ H]|[_ H]]);
      rewrite H; repeat (apply Forall_app; split);
      try (apply (loop_calls_weaken is_cout); [now intros []|exact F]);
      repeat constructor.
Qed.

(** X9. Once a poll has delivered a resize, the viewport covers exactly the
    framebuffer of the window at the end of that iteration and of every later
    one, whatever else the polls deliver (sizes not negative). Before the
    first resize the viewport is the 800x600 set at start-up. *)
Theorem viewport_tracks_framebuffer (env : Env) (size : Z * Z) (n : nat) :
  (forall k, forallb resize_ok (env_events env k) = true) ->
  let w := Nat.iter n (iteration env) (loop_entry size) in
  ((exists j, (j < n)%nat /\ existsb is_resize (env_events env j) = true) ->
   fills_framebuffer w) /\
  ((forall j, (j < n)%nat -> existsb is_resize (env_events env j) = false) ->
   viewport w = mkRect 0 0 800 600).
Proof.
  intros Hok w. subst w. split.
  - induction n as [|n IH]; intros (j & Hj & Hres); [lia|].
    rewrite Nat.iter_succ.
    apply iteration_fills.
    + apply registered_in_loop.
    + apply Hok.
    + rewrite iter_polls. cbn [polls loop_entry plus].
      destruct (Nat.eq_dec j n) as [->|Hne]; [now right|].
      left. apply IH. exists j. split; [lia|exact Hres].
  - induction n as [|n IH]; intro Hnone; [reflexivity|].
    rewrite Nat.iter_succ, iteration_unfold, frame_exec.
    cbn [polls log_call]. rewrite iter_polls. cbn [polls loop_entry plus].
    match goal with
    | |- viewport (exec (dispatch_all ?es) ?v) = _ =>
        destruct (other_events_keep_size es v (Hnone n (Nat.lt_succ_diag_r n)))
          as [Hv _]; rewrite Hv
    end.
    cbn [viewport log_call]. apply IH. intros j Hj. apply Hnone. lia.
Qed.

Lemma viewport_tracks_framebuffer_witness :
  let env := mkEnv true (Some (1600, 1200)) true
               (fun n => match n with
                         | 1%nat => [FramebufferResized 640 480]
                         | _ => [KeyChanged 65 GLFW_PRESS]
                         end) in
  (forall k, forallb resize_ok (env_events env k) = true) /\
  viewport (Nat.iter 1 (iteration env) (loop_entry (1600, 1200))) =
    mkRect 0 0 800 600 /\
  fills_framebuffer (Nat.iter 3 (iteration env) (loop_entry (1600, 1200))).
Proof.
  intro env.
  assert (Hok : forall k, forallb resize_ok (env_events env k) = true)
    by (intros [|[|k]]; reflexivity).
  split; [exact Hok|]. split.
  - apply (proj2 (viewport_tracks_framebuffer env (1600, 1200) 1 Hok)).
    intros [|j] Hj; [reflexivity|lia].
  - apply (proj1 (viewport_tracks_framebuffer env (1600, 1200) 3 Hok)).
    exists 1%nat. split; [lia|reflexivity].
Defined.
